(** * ghligh: the HTTP import/export endpoints of [cmd/serve.go]

    A shallow embedding of [scanPDFs], [serveExportHandler] and
    [serveImportHandler], and the properties of the hash-addressed
    annotation merge protocol they implement. *)

From Stdlib Require Import ZArith Lia Ascii.
From stdpp Require Import base strings list gmap.

Set Warnings "-register-all".

(** ** Go values *)

(** A Go [error]: [None] is [nil], [Some msg] carries [err.Error()]. *)
Definition error : Type := option string.

(** A Go [(value, error)] pair whose value is only read when the error is
    [nil]. *)
Inductive result (A : Type) : Type :=
| Ok (a : A)
| Err (msg : string).
Arguments Ok {A} a.
Arguments Err {A} msg.

(** A Go slice: [None] is the [nil] slice a [var] declaration yields,
    [Some l] an allocated one.  [range] does not tell them apart, the JSON
    encoder does. *)
Definition slice (A : Type) : Type := option (list A).

Definition elems {A} (s : slice A) : list A := default [] s.

Definition append {A} (s : slice A) (x : A) : slice A := Some (elems s ++ [x]).

(** Go's [int] on the 64-bit targets: two's complement, [+] wraps. *)
Definition wrap64 (z : Z) : Z := ((z + 2 ^ 63) mod 2 ^ 64 - 2 ^ 63)%Z.

Definition int_range (z : Z) : Prop := (- 2 ^ 63 <= z < 2 ^ 63)%Z.

(** ** JSON documents, as [encoding/json] produces them *)

Inductive json : Type :=
| JNull
| JBool (b : bool)
| JNum (z : Z)
| JStr (s : string)
| JArr (items : list json)
| JObj (fields : list (string * json)).

(** A nil slice encodes as [null], any other slice as an array. *)
Definition encSlice {A} (enc : A → json) (s : slice A) : json :=
  match s with
  | None => JNull
  | Some l => JArr (enc <$> l)
  end.

(** ** Data model *)

(** Modelled from the spec: the struct [document.GhlighDoc] and the map type
    [document.AnnotsMap] are declared in the [document] package, which is not
    part of the sources at hand.  A document summary has a path, a per-page
    annotation mapping ([None] is the nil map of an absent field) and a
    content hash; the annotation record itself stays abstract. *)
Record GhlighDoc (Annot : Type) : Type := mkDoc {
  Path : string;
  AnnotsBuffer : option (gmap Z (list Annot));
  HashBuffer : string
}.
Arguments mkDoc {Annot} _ _ _.
Arguments Path {Annot} _.
Arguments AnnotsBuffer {Annot} _.
Arguments HashBuffer {Annot} _.

Record importFileResult : Type := mkResult {
  File : string;
  Imported : Z;
  Saved : bool;
  Error : string
}.

Record importSummary : Type := mkSummary {
  Files : slice importFileResult;
  TotalImported : Z
}.

(** The struct tags of [importFileResult]: [error] is [omitempty]. *)
Definition encResult (res : importFileResult) : json :=
  JObj ([("file", JStr (File res)); ("imported", JNum (Imported res));
         ("saved", JBool (Saved res))]
        ++ (if decide (Error res = "") then [] else [("error", JStr (Error res))])).

Definition encSummary (s : importSummary) : json :=
  JObj [("files", encSlice encResult (Files s));
        ("totalImported", JNum (TotalImported s))].

(** ** The aggregation loop of [serveImportHandler] (serve.go:108-119) *)

Section Aggregator.
Context {Annot : Type}.

Local Abbreviation AnnotsMap := (gmap Z (list Annot)).
Local Abbreviation ByHash := (gmap string (gmap Z (list Annot))).

(** [d.HashBuffer == "" || d.AnnotsBuffer == nil] *)
Definition skipped (d : GhlighDoc Annot) : bool :=
  bool_decide (HashBuffer d = "")
  || match AnnotsBuffer d with None => true | Some _ => false end.

(** [byHash[h][page] = append(byHash[h][page], annots...)].  The inner map
    is never nil here: line 114 allocates it first. *)
Definition addPage (h : string) (page : Z) (annots : list Annot)
    (byHash : ByHash) : ByHash :=
  let am := default ∅ (byHash !! h) in
  <[h := <[page := default [] (am !! page) ++ annots]> am]> byHash.

(** One iteration of the loop over [importedDocs].  Ranging over a nil map
    runs no iteration; the order in which Go visits the pages is left to
    [map_fold], and [aggregateDoc_insert] below shows it does not matter. *)
Definition aggregateDoc (byHash : ByHash) (d : GhlighDoc Annot) : ByHash :=
  if skipped d then byHash
  else
    let h := HashBuffer d in
    let byHash1 :=
      match byHash !! h with
      | None => <[h := ∅]> byHash
      | Some _ => byHash
      end in
    map_fold (addPage h) byHash1 (default ∅ (AnnotsBuffer d)).

Definition aggregate (importedDocs : list (GhlighDoc Annot)) : ByHash :=
  foldl aggregateDoc ∅ importedDocs.

(** The per-page effect of one summary, without reference to any visiting
    order. *)
Definition mergePages (am ab : AnnotsMap) : AnnotsMap :=
  merge (λ old new,
           match new with
           | Some annots => Some (default [] old ++ annots)
           | None => old
           end) am ab.

(** The annotation sequence recorded for [(h, page)], if any. *)
Definition annotsAt (byHash : ByHash) (h : string) (page : Z)
    : option (list Annot) :=
  byHash !! h ≫= (.!! page).

End Aggregator.

(** ** The scanner: [scanPDFs] (serve.go:30-54) *)

Definition newline : string := String (Ascii.ascii_of_nat 10) "".

(** [filepath.Ext]: the suffix that starts at the last dot of the last path
    element, scanning from the end up to the first separator. *)
Fixpoint extFrom (revPath suffix : list ascii) : string :=
  match revPath with
  | [] => ""
  | c :: rest =>
      if Ascii.eqb c "/" then ""
      else if Ascii.eqb c "." then String.string_of_list_ascii (c :: suffix)
      else extFrom rest (c :: suffix)
  end.

Definition Ext (path : string) : string :=
  extFrom (rev (String.list_ascii_of_string path)) [].

(** One call of the walk function by [filepath.WalkDir]: the path, the entry's
    name and kind, and the error the walk met there, if any. *)
Record WalkEntry : Type := mkEntry {
  entryPath : string;
  Name : string;
  IsDir : bool;
  walkErr : error
}.

(** The closure [walkFn]; [pdfs] is the captured variable, [abs] is
    [filepath.Abs]. *)
Definition walkFn (abs : string → result string) (pdfs : slice string)
    (e : WalkEntry) : slice string * error :=
  match walkErr e with
  | Some msg => (pdfs, Some msg)
  | None =>
      if IsDir e then (pdfs, None)
      else if negb (String.eqb (Ext (Name e)) ".pdf") then (pdfs, None)
      else match abs (entryPath e) with
           | Err msg => (pdfs, Some msg)
           | Ok a => (append pdfs a, None)
           end
  end.

(** [filepath.WalkDir] stops at the first entry for which the walk function
    returns an error, and returns that error. *)
Fixpoint walk (fn : slice string → WalkEntry → slice string * error)
    (pdfs : slice string) (entries : list WalkEntry) : slice string * error :=
  match entries with
  | [] => (pdfs, None)
  | e :: rest =>
      match fn pdfs e with
      | (pdfs', Some msg) => (pdfs', Some msg)
      | (pdfs', None) => walk fn pdfs' rest
      end
  end.

(** ** Collaborators *)

(** Modelled from the spec: the [document] package is not part of the sources
    at hand; its operations follow the collaborator contract of the
    specification (open, current annotations, content hash, import, persist,
    close).  Each one may read and change the state of the world; what
    [Import] does with the map it is handed is part of that state, the
    handler only ever asks [byHash] whether a hash has an entry. *)
Class DocumentLib (World Annot : Type) : Type := {
  Open : string → World → result (GhlighDoc Annot) * World;
  GetAnnotsBuffer : GhlighDoc Annot → World → option (gmap Z (list Annot)) * World;
  HashDoc : GhlighDoc Annot → World → string * World;
  Import : GhlighDoc Annot → gmap Z (list Annot) → World → (Z * error) * World;
  Save : GhlighDoc Annot → World → (bool * error) * World;
  Close : GhlighDoc Annot → World → World
}.

(** What the handlers take from the Go runtime: the entries
    [filepath.WalkDir] visits under a root, [filepath.Abs], and
    [encoding/json] at the type [[]document.GhlighDoc]. *)
Class Runtime (World Annot : Type) : Type := {
  WalkDir : string → World → list WalkEntry;
  Abs : World → string → result string;
  Unmarshal : string → result (slice (GhlighDoc Annot));
  encDoc : GhlighDoc Annot → json
}.

(** The calls a handler makes, in order. *)
Inductive Event (Annot : Type) : Type :=
| EvWalkDir (root : string)
| EvOpen (path : string) (r : result (GhlighDoc Annot))
| EvGetAnnotsBuffer (doc : GhlighDoc Annot)
| EvHashDoc (doc : GhlighDoc Annot)
| EvImport (doc : GhlighDoc Annot) (am : gmap Z (list Annot))
| EvSave (doc : GhlighDoc Annot)
| EvClose (doc : GhlighDoc Annot).
Arguments EvWalkDir {Annot} root.
Arguments EvOpen {Annot} path r.
Arguments EvGetAnnotsBuffer {Annot} doc.
Arguments EvHashDoc {Annot} doc.
Arguments EvImport {Annot} doc am.
Arguments EvSave {Annot} doc.
Arguments EvClose {Annot} doc.

(** ** HTTP *)

Record Request : Type := mkRequest {
  Method : string;
  (** what [io.ReadAll(r.Body)] returns *)
  Body : result string
}.

Inductive payload : Type :=
| Plain (text : string)
| Json (v : json).

Record Response : Type := mkResponse {
  Status : Z;
  ContentType : string;
  Payload : payload
}.

(** [http.Error]: a plain-text body, the message followed by a newline. *)
Definition httpError (msg : string) (code : Z) : Response :=
  mkResponse code "text/plain; charset=utf-8" (Plain (msg +:+ newline)).

Definition writeJSON (status : Z) (v : json) : Response :=
  mkResponse status "application/json" (Json v).

(** ** The handlers *)

Section Handlers.
Context {World Annot : Type}.
Context `{!DocumentLib World Annot} `{!Runtime World Annot}.

Local Abbreviation Doc := (GhlighDoc Annot).
Local Abbreviation ByHash := (gmap string (gmap Z (list Annot))).

(** A computation threads the world and logs its calls. *)
Definition M (A : Type) : Type := World → A * World * list (Event Annot).

Definition ret {A} (a : A) : M A := λ w, (a, w, []).

Definition bind {A B} (m : M A) (k : A → M B) : M B :=
  λ w, let '(a, w1, t1) := m w in
       let '(b, w2, t2) := k a w1 in
       (b, w2, t1 ++ t2).

Local Notation "'let*' x := m 'in' k" := (bind m (λ x, k))
  (at level 10, x pattern, m at level 100, k at level 200, only parsing).

(** A [for _, x := range l] loop whose body updates [s]. *)
Fixpoint forEach {S X} (body : S → X → M S) (s : S) (l : list X) : M S :=
  match l with
  | [] => ret s
  | x :: rest => let* s' := body s x in forEach body s' rest
  end.

Definition doOpen (path : string) : M (result Doc) :=
  λ w, let '(r, w') := Open path w in (r, w', [EvOpen path r]).

Definition doGetAnnotsBuffer (doc : Doc) : M (option (gmap Z (list Annot))) :=
  λ w, let '(ab, w') := GetAnnotsBuffer doc w in (ab, w', [EvGetAnnotsBuffer doc]).

Definition doHashDoc (doc : Doc) : M string :=
  λ w, let '(h, w') := HashDoc doc w in (h, w', [EvHashDoc doc]).

Definition doImport (doc : Doc) (am : gmap Z (list Annot)) : M (Z * error) :=
  λ w, let '(r, w') := Import doc am w in (r, w', [EvImport doc am]).

Definition doSave (doc : Doc) : M (bool * error) :=
  λ w, let '(r, w') := Save doc w in (r, w', [EvSave doc]).

Definition doClose (doc : Doc) : M unit :=
  λ w, (tt, Close doc w, [EvClose doc]).

Definition scanPDFs (root : string) : M (result (slice string)) :=
  λ w, let '(pdfs, err) := walk (walkFn (Abs w)) None (WalkDir root w) in
       (match err with Some msg => Err msg | None => Ok pdfs end,
        w, [EvWalkDir root]).

(** The body of the loop of [serveExportHandler] (serve.go:75-85). *)
Definition exportFile (exportedDocs : slice Doc) (path : string) : M (slice Doc) :=
  let* r := doOpen path in
  match r with
  | Err _ => ret exportedDocs
  | Ok doc =>
      let* ab := doGetAnnotsBuffer doc in
      let doc := mkDoc (Path doc) ab (HashBuffer doc) in
      let* h := doHashDoc doc in
      let doc := mkDoc (Path doc) (AnnotsBuffer doc) h in
      let exportedDocs := append exportedDocs doc in
      let* _ := doClose doc in
      ret exportedDocs
  end.

Definition serveExportHandler (r : Request) : M Response :=
  if negb (String.eqb (Method r) "POST") then
    ret (httpError "method not allowed" 405)
  else
    let* pdfs := scanPDFs "." in
    match pdfs with
    | Err msg => ret (httpError msg 500)
    | Ok pdfs =>
        let* exportedDocs := forEach exportFile None (elems pdfs) in
        ret (writeJSON 200 (encSlice encDoc exportedDocs))
    end.

(** The body of the second loop of [serveImportHandler] (serve.go:128-165). *)
Definition importFile (byHash : ByHash) (summary : importSummary)
    (path : string) : M importSummary :=
  let res := mkResult path 0 false "" in
  let* r := doOpen path in
  match r with
  | Err msg =>
      let res := mkResult (File res) (Imported res) (Saved res) msg in
      ret (mkSummary (append (Files summary) res) (TotalImported summary))
  | Ok doc =>
      let* h := doHashDoc doc in
      match byHash !! h with
      | None => let* _ := doClose doc in ret summary
      | Some am =>
          let* (imported, err) := doImport doc am in
          let res := mkResult (File res) imported (Saved res) (Error res) in
          match err with
          | Some msg =>
              let res := mkResult (File res) (Imported res) (Saved res) msg in
              let* _ := doClose doc in
              ret (mkSummary (append (Files summary) res) (TotalImported summary))
          | None =>
              let* res := (if (0 <? imported)%Z then
                        let* (saved, err) := doSave doc in
                        let res := mkResult (File res) (Imported res) saved (Error res) in
                        ret (match err with
                             | Some msg => mkResult (File res) (Imported res) (Saved res) msg
                             | None => res
                             end)
                      else ret res) in
              let* _ := doClose doc in
              ret (mkSummary (append (Files summary) res)
                             (wrap64 (TotalImported summary + imported)))
          end
      end
  end.

Definition serveImportHandler (r : Request) : M Response :=
  if negb (String.eqb (Method r) "POST") then
    ret (httpError "method not allowed" 405)
  else
    match Body r with
    | Err msg => ret (httpError msg 400)
    | Ok body =>
        match Unmarshal body with
        | Err msg => ret (httpError ("invalid json: " +:+ msg) 400)
        | Ok importedDocs =>
            let byHash := aggregate (elems importedDocs) in
            let* pdfs := scanPDFs "." in
            match pdfs with
            | Err msg => ret (httpError msg 500)
            | Ok pdfs =>
                let* summary := forEach (importFile byHash) (mkSummary None 0) (elems pdfs) in
                ret (writeJSON 200 (encSummary summary))
            end
        end
    end.

End Handlers.

Arguments M World Annot A : clear implicits.

(** ** Reading a run *)

Definition value {A W E} (x : A * W * list E) : A := x.1.1.
Definition world {A W E} (x : A * W * list E) : W := x.1.2.
Definition trace {A W E} (x : A * W * list E) : list E := x.2.

(** The ways through the body of the import loop: the two [continue]s before
    the merge (serve.go:135, 142), the one after a merge error (151), and the
    end of the body (164). *)
Inductive exitPath : Type :=
| OpenFailed
| NoMatch
| MergeFailed
| Completed.

Section Views.
Context {World Annot : Type}.
Context `{!DocumentLib World Annot} `{!Runtime World Annot}.

Local Notation "'let*' x := m 'in' k" := (bind m (λ x, k))
  (at level 10, x pattern, m at level 100, k at level 200, only parsing).

(** The same calls as [importFile], returning the exit taken and the outcome
    built instead of updating the summary; [importFile_view] relates the
    two. *)
Definition importFileView (byHash : gmap string (gmap Z (list Annot)))
    (path : string) : M World Annot (exitPath * importFileResult) :=
  let* r := doOpen path in
  match r with
  | Err msg => ret (OpenFailed, mkResult path 0 false msg)
  | Ok doc =>
      let* h := doHashDoc doc in
      match byHash !! h with
      | None => let* _ := doClose doc in ret (NoMatch, mkResult path 0 false "")
      | Some am =>
          let* (imported, err) := doImport doc am in
          match err with
          | Some msg =>
              let* _ := doClose doc in
              ret (MergeFailed, mkResult path imported false msg)
          | None =>
              let* (saved, serr) :=
                (if (0 <? imported)%Z then doSave doc else ret (false, None)) in
              let* _ := doClose doc in
              ret (Completed, mkResult path imported saved (default "" serr))
          end
      end
  end.

Fixpoint importViews (byHash : gmap string (gmap Z (list Annot)))
    (paths : list string)
    : M World Annot (list (exitPath * importFileResult)) :=
  match paths with
  | [] => ret []
  | path :: rest =>
      let* v := importFileView byHash path in
      let* vs := importViews byHash rest in
      ret (v :: vs)
  end.

End Views.

(** What the loop does with an iteration's outcome. *)
Definition record (summary : importSummary) (v : exitPath * importFileResult)
    : importSummary :=
  match v.1 with
  | NoMatch => summary
  | Completed =>
      mkSummary (append (Files summary) v.2)
                (wrap64 (TotalImported summary + Imported v.2))
  | OpenFailed | MergeFailed =>
      mkSummary (append (Files summary) v.2) (TotalImported summary)
  end.

Definition isReported (v : exitPath * importFileResult) : bool :=
  match v.1 with NoMatch => false | _ => true end.

Definition mergeFailed (v : exitPath * importFileResult) : bool :=
  match v.1 with MergeFailed => true | _ => false end.

(** The outcomes that reach the [files] array, in scan order. *)
Definition reported (vs : list (exitPath * importFileResult))
    : list importFileResult :=
  snd <$> filter (λ v, isReported v = true) vs.

Definition sumImported (l : list importFileResult) : Z :=
  foldr (λ res acc, (Imported res + acc)%Z) 0%Z l.

(** The calls of one iteration that opened [doc]: every call between the open
    and the close uses that document and neither opens nor closes one. *)
Definition usesDoc {Annot} (doc : GhlighDoc Annot) (ev : Event Annot) : Prop :=
  match ev with
  | EvGetAnnotsBuffer d | EvHashDoc d | EvImport d _ | EvSave d => d = doc
  | EvWalkDir _ | EvOpen _ _ | EvClose _ => False
  end.

Inductive iterationTrace {Annot} (path : string) : list (Event Annot) → Prop :=
| iteration_unopened msg :
    iterationTrace path [EvOpen path (Err msg)]
| iteration_opened doc mid :
    Forall (usesDoc doc) mid →
    iterationTrace path (EvOpen path (Ok doc) :: mid ++ [EvClose doc]).

Definition isSave {Annot} (ev : Event Annot) : bool :=
  match ev with EvSave _ => true | _ => false end.

(** An entry the walk function passes over: no error, and a directory or a
    name whose extension is not [.pdf]. *)
Definition passedOver (e : WalkEntry) : Prop :=
  walkErr e = None ∧ (IsDir e = true ∨ Ext (Name e) ≠ ".pdf").

(** The reported outcomes whose merge step returned no error, and those whose
    merge step returned one. *)
Definition reportedWithoutMergeError (vs : list (exitPath * importFileResult))
    : list importFileResult :=
  snd <$> filter (λ v, isReported v && negb (mergeFailed v) = true) vs.

Definition failedMerges (vs : list (exitPath * importFileResult))
    : list importFileResult :=
  snd <$> filter (λ v, mergeFailed v = true) vs.

(** What an iteration adds to [TotalImported]. *)
Definition counted (v : exitPath * importFileResult) : Z :=
  match v.1 with Completed => Imported v.2 | _ => 0%Z end.

Definition sumCounted (vs : list (exitPath * importFileResult)) : Z :=
  foldr (λ v acc, (counted v + acc)%Z) 0%Z vs.

(** An iteration that ends before the merge reports no imported record. *)
Definition unmergedIsZero (v : exitPath * importFileResult) : Prop :=
  match v.1 with
  | OpenFailed | NoMatch => Imported v.2 = 0%Z
  | MergeFailed | Completed => True
  end.

Definition isOpened {Annot} (ev : Event Annot) : bool :=
  match ev with EvOpen _ (Ok _) => true | _ => false end.

(** The documents a run closed, as they were when closed. *)
Definition closedDocs {Annot} (t : list (Event Annot)) : list (GhlighDoc Annot) :=
  omap (λ ev, match ev with EvClose d => Some d | _ => None end) t.

(** ** Further readings of a run *)

(** The entries [walkFn] keeps: entries that are not directories and whose
    name has the extension [.pdf] (serve.go:36-41). *)
Definition selected (e : WalkEntry) : bool :=
  negb (IsDir e) && String.eqb (Ext (Name e)) ".pdf".

(** The paths a run tried to open, in order. *)
Definition attempted {Annot} (t : list (Event Annot)) : list string :=
  omap (λ ev, match ev with EvOpen path _ => Some path | _ => None end) t.

(** The calls that change a document. *)
Definition isMutation {Annot} (ev : Event Annot) : bool :=
  match ev with EvImport _ _ | EvSave _ => true | _ => false end.

Definition isGetAnnotsBuffer {Annot} (ev : Event Annot) : bool :=
  match ev with EvGetAnnotsBuffer _ => true | _ => false end.

(** What a summary has to say about a hash and a page: nothing if it is
    skipped, is about another hash, or does not list the page. *)
Definition contribution {Annot} (h : string) (page : Z) (d : GhlighDoc Annot)
    : option (list Annot) :=
  if skipped d then None
  else if decide (HashBuffer d = h) then default ∅ (AnnotsBuffer d) !! page
  else None.

(** An entry the walk gets past: no error at the entry, and an absolute path
    if the entry is kept. *)
Definition walkable (abs : string → result string) (e : WalkEntry) : Prop :=
  walkErr e = None ∧ (selected e = true → ∃ a, abs (entryPath e) = Ok a).

Definition isImport {Annot} (ev : Event Annot) : bool :=
  match ev with EvImport _ _ => true | _ => false end.

(** The calls of one iteration of the export loop: the open alone when it
    fails, else the open, the two reads and the close; the document handed to
    the later calls carries the fields assigned so far. *)
Inductive exportIteration {Annot} (path : string) : list (Event Annot) → Prop :=
| export_unopened msg :
    exportIteration path [EvOpen path (Err msg)]
| export_opened doc ab h :
    exportIteration path
      [EvOpen path (Ok doc);
       EvGetAnnotsBuffer doc;
       EvHashDoc (mkDoc (Path doc) ab (HashBuffer doc));
       EvClose (mkDoc (Path doc) ab h)].

(** ** A directory walk given entry by entry

    A second concrete world: the world is the list of entries the walk
    visits, relative paths are made absolute under [/cwd], and nothing in it
    opens as a document. *)
Module Walks.

#[export] Instance documents : DocumentLib (list WalkEntry) string := {|
  Open path w := (Err "not a document", w);
  GetAnnotsBuffer doc w := (None, w);
  HashDoc doc w := ("", w);
  Import doc am w := ((0%Z, None), w);
  Save doc w := ((false, None), w);
  Close doc w := w
|}.

#[export] Instance runtime : Runtime (list WalkEntry) string := {|
  WalkDir root w := w;
  Abs w path := Ok (if String.prefix "/" path then path else "/cwd/" +:+ path);
  Unmarshal body :=
    if String.eqb body "null" then Ok None
    else if String.eqb body "[]" then Ok (Some [])
    else Err "unexpected end of JSON input";
  encDoc doc := JStr (Path doc)
|}.

Definition library : list WalkEntry :=
  [mkEntry "." "." true None;
   mkEntry "a.pdf" "a.pdf" false None;
   mkEntry "b.PDF" "b.PDF" false None;
   mkEntry "papers" "papers" true None;
   mkEntry "papers/c.pdf" "c.pdf" false None;
   mkEntry "papers/notes.txt" "notes.txt" false None;
   mkEntry "shelf.pdf" "shelf.pdf" true None].

Definition locked : list WalkEntry :=
  [mkEntry "." "." true None;
   mkEntry "a.pdf" "a.pdf" false None;
   mkEntry "private" "private" true (Some "open private: permission denied");
   mkEntry "z.pdf" "z.pdf" false None].

End Walks.

(** ** A small concrete world

    A directory of files with scripted behaviour, annotations being plain
    strings: the instance the general statements are checked against. *)
Module Fixture.

Record file : Type := mkFile {
  fPath : string;
  fOpens : bool;
  fHash : string;
  fAnnots : option (gmap Z (list string));
  fImport : Z * error;
  fSave : bool * error
}.

Fixpoint lookupFile (path : string) (w : list file) : option file :=
  match w with
  | [] => None
  | f :: rest => if String.eqb (fPath f) path then Some f else lookupFile path rest
  end.

#[export] Instance documents : DocumentLib (list file) string := {|
  Open path w :=
    (match lookupFile path w with
     | Some f => if fOpens f then Ok (mkDoc path None "") else Err "damaged file"
     | None => Err "no such file"
     end, w);
  GetAnnotsBuffer doc w := (lookupFile (Path doc) w ≫= fAnnots, w);
  HashDoc doc w := (default "" (fHash <$> lookupFile (Path doc) w), w);
  Import doc am w := (default (0%Z, None) (fImport <$> lookupFile (Path doc) w), w);
  Save doc w := (default (false, None) (fSave <$> lookupFile (Path doc) w), w);
  Close doc w := w
|}.

#[export] Instance runtime : Runtime (list file) string := {|
  WalkDir root w := (λ f, mkEntry (fPath f) (fPath f) false None) <$> w;
  Abs w path := Ok path;
  Unmarshal body :=
    if String.eqb body "null" then Ok None
    else if String.eqb body "[]" then Ok (Some [])
    else Err "invalid character 'o' in literal null (expecting 'u')";
  encDoc doc := JStr (Path doc)
|}.

Definition post (body : string) : Request := mkRequest "POST" (Ok body).

(** Two exported copies of one document, and a placeholder entry. *)
Definition copyA : GhlighDoc string := mkDoc "a.pdf" (Some {[1%Z := ["h1"]]}) "abc".
Definition copyB : GhlighDoc string := mkDoc "b.pdf" (Some {[1%Z := ["h2"]]}) "abc".
Definition blank : GhlighDoc string := mkDoc "c.pdf" (Some ∅) "abc".
Definition absent : GhlighDoc string := mkDoc "d.pdf" None "abc".
Definition unhashedA : GhlighDoc string := mkDoc "a.pdf" (Some {[1%Z := ["h1"]]}) "".
Definition unhashedB : GhlighDoc string := mkDoc "b.pdf" (Some {[1%Z := ["h2"]]}) "".

(** Local files: one that merges and saves, one whose merge fails half way,
    one whose save fails, one that does not open, one of another content. *)
Definition good : file :=
  mkFile "/w/good.pdf" true "abc" (Some {[1%Z := ["old"]]}) (2%Z, None) (true, None).
Definition halfMerged : file :=
  mkFile "/w/half.pdf" true "abc" None (2%Z, Some "merge failed") (true, None).
Definition unsaved : file :=
  mkFile "/w/unsaved.pdf" true "abc" None (3%Z, None) (false, Some "disk full").
Definition damaged : file :=
  mkFile "/w/damaged.pdf" false "abc" None (0%Z, None) (false, None).
Definition other : file :=
  mkFile "/w/other.pdf" true "xyz" (Some ∅) (5%Z, None) (true, None).
Definition notes : file :=
  mkFile "/w/notes.txt" true "abc" None (1%Z, None) (true, None).

(** An export payload and a local tree to import it into. *)
Definition payload : list (GhlighDoc string) := [copyA; copyB].
Definition tree : list file := [good; halfMerged; unsaved; damaged; other].
Definition treePaths : list string :=
  ["/w/good.pdf"; "/w/half.pdf"; "/w/unsaved.pdf"; "/w/damaged.pdf"; "/w/other.pdf"].

End Fixture.

(** * Properties *)

(** ** The aggregator *)

Section AggregatorFacts.
Context {Annot : Type}.

Local Abbreviation AnnotsMap := (gmap Z (list Annot)).
Local Abbreviation ByHash := (gmap string (gmap Z (list Annot))).

Lemma mergePages_lookup (am ab : AnnotsMap) (page : Z) :
  mergePages am ab !! page =
    match ab !! page with
    | Some annots => Some (default [] (am !! page) ++ annots)
    | None => am !! page
    end.
Proof.
  unfold mergePages. rewrite lookup_merge.
  destruct (am !! page), (ab !! page); reflexivity.
Qed.

Lemma mergePages_empty (am : AnnotsMap) : mergePages am ∅ = am.
Proof.
  apply map_eq; intros page.
  now rewrite mergePages_lookup, lookup_empty.
Qed.

Lemma mergePages_insert (am ab : AnnotsMap) (page : Z) (annots : list Annot) :
  ab !! page = None →
  <[page := default [] (mergePages am ab !! page) ++ annots]> (mergePages am ab)
  = mergePages am (<[page := annots]> ab).
Proof.
  intros Hfresh. apply map_eq; intros q.
  rewrite (mergePages_lookup am (<[page:=annots]> ab)).
  destruct (decide (page = q)) as [->|Hne].
  - rewrite !lookup_insert_eq, mergePages_lookup, Hfresh. reflexivity.
  - rewrite !lookup_insert_ne by assumption. apply mergePages_lookup.
Qed.

Lemma addPages_insert (h : string) (byHash : ByHash) (am ab : AnnotsMap) :
  byHash !! h = Some am →
  map_fold (addPage h) byHash ab = <[h := mergePages am ab]> byHash.
Proof.
  intros Hh.
  apply (map_fold_weak_ind
           (λ r m, r = <[h := mergePages am m]> byHash)).
  - rewrite mergePages_empty. symmetry. now apply insert_id.
  - intros page annots m r Hfresh ->. unfold addPage.
    rewrite lookup_insert_eq. simpl.
    rewrite insert_insert_eq. f_equal.
    now apply mergePages_insert.
Qed.

(** What a summary that is not skipped does, in closed form. *)
Lemma aggregateDoc_insert (byHash : ByHash) (d : GhlighDoc Annot) :
  skipped d = false →
  aggregateDoc byHash d =
    <[HashBuffer d :=
        mergePages (default ∅ (byHash !! HashBuffer d))
                   (default ∅ (AnnotsBuffer d))]> byHash.
Proof.
  intros Hs. unfold aggregateDoc. rewrite Hs.
  destruct (byHash !! HashBuffer d) as [am|] eqn:Hh; simpl.
  - now apply addPages_insert.
  - rewrite (addPages_insert _ _ ∅) by apply lookup_insert_eq.
    apply insert_insert_eq.
Qed.

Lemma aggregateDoc_skipped (byHash : ByHash) (d : GhlighDoc Annot) :
  skipped d = true → aggregateDoc byHash d = byHash.
Proof. intros Hs. unfold aggregateDoc. now rewrite Hs. Qed.

Lemma aggregate_app (l1 l2 : list (GhlighDoc Annot)) :
  aggregate (l1 ++ l2) = foldl aggregateDoc (aggregate l1) l2.
Proof. apply foldl_app. Qed.

Lemma annotsAt_lookup (byHash : ByHash) (h : string) (page : Z) :
  default ∅ (byHash !! h) !! page = annotsAt byHash h page.
Proof. unfold annotsAt. now destruct (byHash !! h). Qed.

(** One summary, seen from a hash and a page. *)
Lemma annotsAt_aggregateDoc (byHash : ByHash) (d : GhlighDoc Annot)
    (h : string) (page : Z) :
  annotsAt (aggregateDoc byHash d) h page =
    if skipped d then annotsAt byHash h page
    else if decide (HashBuffer d = h) then
      match default ∅ (AnnotsBuffer d) !! page with
      | Some annots => Some (default [] (annotsAt byHash h page) ++ annots)
      | None => annotsAt byHash h page
      end
    else annotsAt byHash h page.
Proof.
  destruct (skipped d) eqn:Hs.
  - now rewrite aggregateDoc_skipped.
  - rewrite aggregateDoc_insert by assumption. unfold annotsAt at 1.
    destruct (decide (HashBuffer d = h)) as [<-|Hne].
    + rewrite lookup_insert_eq. simpl.
      now rewrite mergePages_lookup, annotsAt_lookup.
    + now rewrite lookup_insert_ne.
Qed.

Lemma annotsAt_foldl (l : list (GhlighDoc Annot)) (m1 m2 : ByHash) :
  (∀ h page, annotsAt m1 h page = annotsAt m2 h page) →
  ∀ h page, annotsAt (foldl aggregateDoc m1 l) h page
            = annotsAt (foldl aggregateDoc m2 l) h page.
Proof.
  revert m1 m2. induction l as [|d l IH]; intros m1 m2 Heq; [exact Heq|].
  simpl. apply IH. intros h page.
  now rewrite !annotsAt_aggregateDoc, !Heq.
Qed.

Lemma aggregateDoc_keeps (byHash : ByHash) (d : GhlighDoc Annot) (h : string) :
  is_Some (byHash !! h) → is_Some (aggregateDoc byHash d !! h).
Proof.
  intros Hh. destruct (skipped d) eqn:Hs.
  - now rewrite aggregateDoc_skipped.
  - rewrite aggregateDoc_insert by assumption.
    destruct (decide (HashBuffer d = h)) as [<-|Hne].
    + rewrite lookup_insert_eq. eauto.
    + now rewrite lookup_insert_ne.
Qed.

Lemma foldl_aggregateDoc_keeps (l : list (GhlighDoc Annot)) (byHash : ByHash)
    (h : string) :
  is_Some (byHash !! h) → is_Some (foldl aggregateDoc byHash l !! h).
Proof.
  revert byHash. induction l as [|d l IH]; intros byHash Hh; [exact Hh|].
  simpl. apply IH. now apply aggregateDoc_keeps.
Qed.

Lemma skipped_true (d : GhlighDoc Annot) :
  skipped d = true ↔ HashBuffer d = "" ∨ AnnotsBuffer d = None.
Proof.
  unfold skipped. rewrite orb_true_iff, bool_decide_eq_true.
  destruct (AnnotsBuffer d); intuition congruence.
Qed.

Lemma foldl_skipped (l : list (GhlighDoc Annot)) (byHash : ByHash) :
  Forall (λ d, HashBuffer d = "" ∨ AnnotsBuffer d = None) l →
  foldl aggregateDoc byHash l = byHash.
Proof.
  induction 1 as [|d l Hd _ IH]; [reflexivity|].
  simpl. rewrite aggregateDoc_skipped by now apply skipped_true.
  exact IH.
Qed.

Lemma foldl_blank (l : list (GhlighDoc Annot)) (byHash : ByHash) :
  Forall (λ d, HashBuffer d = "" ∨ AnnotsBuffer d = None
               ∨ AnnotsBuffer d = Some ∅) l →
  ∀ h page, annotsAt (foldl aggregateDoc byHash l) h page
            = annotsAt byHash h page.
Proof.
  intros Hl. revert byHash.
  induction Hl as [|d l Hd _ IH]; intros byHash h page; [reflexivity|].
  simpl. rewrite IH, annotsAt_aggregateDoc.
  destruct (skipped d) eqn:Hs; [reflexivity|].
  destruct Hd as [Hd|[Hd|Hd]].
  - assert (skipped d = true) by (apply skipped_true; now left). congruence.
  - assert (skipped d = true) by (apply skipped_true; now right). congruence.
  - rewrite Hd. simpl. rewrite lookup_empty. now destruct (decide _).
Qed.

(** C3 (amended).  The aggregation skips a summary whose content hash is empty
    or whose annotation mapping is absent (nil): such summaries contribute
    nothing to the aggregated mapping, wherever they stand in the batch, and a
    batch made of them alone aggregates to the empty mapping whatever hashes it
    carries.  A summary with a hash and a present but empty mapping is not
    skipped: it adds no annotation record to any hash and page, but its hash
    gets an entry. *)
Theorem aggregate_skip_rule (before docs after : list (GhlighDoc Annot)) :
  Forall (λ d, HashBuffer d = "" ∨ AnnotsBuffer d = None
               ∨ AnnotsBuffer d = Some ∅) docs →
  (∀ h page, annotsAt (aggregate (before ++ docs ++ after)) h page
             = annotsAt (aggregate (before ++ after)) h page)
  ∧ (Forall (λ d, HashBuffer d = "" ∨ AnnotsBuffer d = None) docs →
     aggregate (before ++ docs ++ after) = aggregate (before ++ after)
     ∧ aggregate docs = ∅)
  ∧ (∀ d, d ∈ docs → HashBuffer d ≠ "" → AnnotsBuffer d = Some ∅ →
     is_Some (aggregate (before ++ docs ++ after) !! HashBuffer d)).
Proof.
  intros Hdocs. repeat split.
  - intros h page.
    rewrite (aggregate_app before (docs ++ after)), foldl_app.
    rewrite (aggregate_app before after).
    apply annotsAt_foldl. intros h' page'. now apply foldl_blank.
  - rewrite (aggregate_app before (docs ++ after)), foldl_app.
    rewrite (foldl_skipped docs) by assumption.
    symmetry. apply aggregate_app.
  - now apply foldl_skipped.
  - intros d Hd Hh Hab.
    apply list_elem_of_split in Hd as (l1 & l2 & ->).
    rewrite (aggregate_app before), !foldl_app. simpl.
    do 2 apply foldl_aggregateDoc_keeps.
    rewrite aggregateDoc_insert.
    + rewrite lookup_insert_eq. eauto.
    + unfold skipped. rewrite Hab, bool_decide_eq_false_2 by assumption.
      reflexivity.
Qed.

(** C5 (amended).  Two summaries that share a non-empty content hash and both
    list page [page] aggregate, for that hash and page, to the first one's
    sequence followed by the second one's: nothing is dropped or reordered,
    and the length is the sum of the two lengths. *)
Theorem aggregate_concatenates (a b : GhlighDoc Annot) (h : string) (page : Z)
    (la lb : list Annot) :
  h ≠ "" →
  HashBuffer a = h → HashBuffer b = h →
  AnnotsBuffer a ≫= (.!! page) = Some la →
  AnnotsBuffer b ≫= (.!! page) = Some lb →
  annotsAt (aggregate [a; b]) h page = Some (la ++ lb)
  ∧ length (la ++ lb) = length la + length lb.
Proof.
  intros Hh Ha Hb Hla Hlb. split; [|apply length_app].
  assert (Hskip : ∀ (d : GhlighDoc Annot) (l : list Annot),
                    HashBuffer d = h → AnnotsBuffer d ≫= (.!! page) = Some l →
                         skipped d = false ∧ default ∅ (AnnotsBuffer d) !! page = Some l).
  { intros d l Hd Hl. unfold skipped.
    rewrite bool_decide_eq_false_2 by congruence.
    destruct (AnnotsBuffer d); [now split|discriminate]. }
  destruct (Hskip a la Ha Hla) as [Hsa Hpa].
  destruct (Hskip b lb Hb Hlb) as [Hsb Hpb].
  unfold aggregate. simpl.
  rewrite !annotsAt_aggregateDoc, Hsa, Hsb, Hpa, Hpb.
  rewrite !decide_True by assumption.
  unfold annotsAt. rewrite lookup_empty. reflexivity.
Qed.

End AggregatorFacts.

(** ** Go integers *)

Lemma wrap64_range (z : Z) : int_range (wrap64 z).
Proof.
  unfold int_range, wrap64.
  pose proof (Z.mod_pos_bound (z + 2 ^ 63) (2 ^ 64)) as H. lia.
Qed.

Lemma wrap64_small (z : Z) : int_range z → wrap64 z = z.
Proof.
  unfold int_range, wrap64. intros H.
  rewrite Z.mod_small by lia. lia.
Qed.

Lemma wrap64_add_l (a b : Z) : wrap64 (wrap64 a + b) = wrap64 (a + b).
Proof.
  unfold wrap64. f_equal.
  replace ((a + 2 ^ 63) mod 2 ^ 64 - 2 ^ 63 + b + 2 ^ 63)%Z
    with ((a + 2 ^ 63) mod 2 ^ 64 + b)%Z by lia.
  rewrite Zplus_mod_idemp_l. f_equal. lia.
Qed.

(** ** The scanner *)

Lemma walk_passedOver (abs : string → result string) (pdfs : slice string)
    (entries : list WalkEntry) :
  Forall passedOver entries → walk (walkFn abs) pdfs entries = (pdfs, None).
Proof.
  induction 1 as [|e entries [Herr Hkind] _ IH]; [reflexivity|].
  simpl. unfold walkFn at 1. rewrite Herr.
  destruct (IsDir e); [exact IH|].
  destruct Hkind as [Hdir|Hext]; [discriminate|].
  destruct (String.eqb_spec (Ext (Name e)) ".pdf") as [Heq|_]; [contradiction|].
  exact IH.
Qed.

(** ** The handlers *)

Section HandlerFacts.
Context {World Annot : Type}.
Context `{!DocumentLib World Annot} `{!Runtime World Annot}.

Local Abbreviation ByHash := (gmap string (gmap Z (list Annot))).

Ltac unfold_run :=
  unfold importFile, importFileView, exportFile, scanPDFs, bind, ret, doOpen,
    doGetAnnotsBuffer, doHashDoc, doImport, doSave, doClose,
    value, world, trace in *.

(** Case analysis on the answers of the collaborators, in call order. *)
Ltac answers :=
  repeat (simpl;
    match goal with
    | |- context [Open ?p ?w] =>
        let E := fresh "HOpen" in destruct (Open p w) as [[?doc|?msg] ?w] eqn:E
    | |- context [HashDoc ?d ?w] =>
        let E := fresh "HHash" in destruct (HashDoc d w) as [?h ?w] eqn:E
    | |- context [GetAnnotsBuffer ?d ?w] =>
        let E := fresh "HAnn" in destruct (GetAnnotsBuffer d w) as [?ab ?w] eqn:E
    | |- context [@lookup string _ _ _ ?h ?m] =>
        let E := fresh "HEntry" in destruct (m !! h) as [?am|] eqn:E
    | |- context [Import ?d ?am ?w] =>
        let E := fresh "HImport" in
        destruct (Import d am w) as [[?imported [?msg|]] ?w] eqn:E
    | |- context [(0 <? ?n)%Z] =>
        let E := fresh "HPos" in destruct (0 <? n)%Z eqn:E
    | |- context [Save ?d ?w] =>
        let E := fresh "HSave" in
        destruct (Save d w) as [[?saved [?msg|]] ?w] eqn:E
    end); simpl.

Lemma importFile_view (byHash : ByHash) (s : importSummary) (path : string)
    (w : World) :
  importFile byHash s path w =
    (record s (value (importFileView byHash path w)),
     world (importFileView byHash path w),
     trace (importFileView byHash path w)).
Proof. unfold_run. answers; reflexivity. Qed.

Lemma forEach_importFile_view (byHash : ByHash) (paths : list string)
    (s : importSummary) (w : World) :
  forEach (importFile byHash) s paths w =
    (foldl record s (value (importViews byHash paths w)),
     world (importViews byHash paths w),
     trace (importViews byHash paths w)).
Proof.
  revert s w. induction paths as [|path paths IH]; intros s w; [reflexivity|].
  cbn [forEach importViews]. unfold bind, ret.
  rewrite importFile_view. unfold value, world, trace in *.
  destruct (importFileView byHash path w) as [[v w1] t1]. simpl.
  rewrite IH.
  destruct (importViews byHash paths w1) as [[vs w2] t2]. simpl.
  now rewrite app_nil_r.
Qed.

(** *** The summary as a function of the iterations *)

Lemma reported_cons (v : exitPath * importFileResult)
    (vs : list (exitPath * importFileResult)) :
  reported (v :: vs) = if isReported v then v.2 :: reported vs else reported vs.
Proof.
  unfold reported. rewrite filter_cons.
  destruct (isReported v); reflexivity.
Qed.

Lemma foldl_record_files (vs : list (exitPath * importFileResult))
    (s : importSummary) :
  elems (Files (foldl record s vs)) = elems (Files s) ++ reported vs.
Proof.
  revert s. induction vs as [|v vs IH]; intros s.
  - simpl. now rewrite app_nil_r.
  - simpl. rewrite IH, reported_cons.
    destruct v as [[] res]; simpl; try reflexivity;
      now rewrite <- app_assoc.
Qed.

Lemma foldl_record_total (vs : list (exitPath * importFileResult))
    (s : importSummary) :
  wrap64 (TotalImported (foldl record s vs))
  = wrap64 (TotalImported s + sumCounted vs).
Proof.
  revert s. induction vs as [|v vs IH]; intros s.
  - simpl. f_equal. lia.
  - simpl. rewrite IH.
    destruct v as [[] res]; unfold record, counted; simpl;
      try (f_equal; lia).
    rewrite wrap64_add_l. f_equal. lia.
Qed.

Lemma foldl_record_range (vs : list (exitPath * importFileResult))
    (s : importSummary) :
  int_range (TotalImported s) → int_range (TotalImported (foldl record s vs)).
Proof.
  revert s. induction vs as [|v vs IH]; intros s Hs; [exact Hs|].
  simpl. apply IH.
  destruct v as [[] res]; unfold record; simpl; try exact Hs.
  apply wrap64_range.
Qed.

(** From an empty summary: the total is the sum of the counted iterations, in
    Go's [int]. *)
Lemma total_from_zero (vs : list (exitPath * importFileResult)) :
  TotalImported (foldl record (mkSummary None 0) vs) = wrap64 (sumCounted vs).
Proof.
  rewrite <- (wrap64_small (TotalImported _)).
  - now rewrite foldl_record_total.
  - apply foldl_record_range. simpl. unfold int_range. lia.
Qed.

Lemma sumImported_reported_split (vs : list (exitPath * importFileResult)) :
  sumImported (reported vs)
  = (sumImported (reportedWithoutMergeError vs) + sumImported (failedMerges vs))%Z.
Proof.
  unfold reported, reportedWithoutMergeError, failedMerges.
  induction vs as [|[[] res] vs IH]; [reflexivity|..];
    rewrite !filter_cons; simpl in *;
    repeat case_decide; simpl in *; try discriminate; try congruence;
    unfold fmap in *; lia.
Qed.

Lemma sumCounted_reported (vs : list (exitPath * importFileResult)) :
  Forall unmergedIsZero vs →
  sumCounted vs = sumImported (reportedWithoutMergeError vs).
Proof.
  unfold reportedWithoutMergeError.
  induction 1 as [|[[] res] vs Hv _ IH]; [reflexivity|..];
    rewrite filter_cons; unfold unmergedIsZero, counted in *; simpl in *;
    repeat case_decide; simpl in *; try discriminate; try congruence;
    unfold fmap, counted in *; simpl; lia.
Qed.

Lemma importFileView_unmerged (byHash : ByHash) (path : string) (w : World) :
  unmergedIsZero (value (importFileView byHash path w)).
Proof. unfold_run. answers; exact I || reflexivity. Qed.

Lemma importViews_unmerged (byHash : ByHash) (paths : list string) (w : World) :
  Forall unmergedIsZero (value (importViews byHash paths w)).
Proof.
  revert w. induction paths as [|path paths IH]; intros w; [constructor|].
  cbn [importViews]. unfold bind, ret.
  pose proof (importFileView_unmerged byHash path w) as Hv.
  unfold value in *.
  destruct (importFileView byHash path w) as [[v w1] t1].
  specialize (IH w1).
  destruct (importViews byHash paths w1) as [[vs w2] t2].
  simpl in *. now constructor.
Qed.

(** The exits before the merge. *)
Lemma importFileView_unopened (byHash : ByHash) (path msg : string) (w w1 : World) :
  Open path w = (Err msg, w1) →
  importFileView byHash path w
  = ((OpenFailed, mkResult path 0 false msg), w1, [EvOpen path (Err msg)]).
Proof. intros HO. unfold_run. now rewrite HO. Qed.

Lemma importFileView_unmatched (byHash : ByHash) (path : string) (w w1 w2 : World)
    (doc : GhlighDoc Annot) (h : string) :
  Open path w = (Ok doc, w1) → HashDoc doc w1 = (h, w2) → byHash !! h = None →
  importFileView byHash path w
  = ((NoMatch, mkResult path 0 false ""), Close doc w2,
     [EvOpen path (Ok doc); EvHashDoc doc; EvClose doc]).
Proof. intros HO HH HE. unfold_run. now rewrite HO, HH, HE. Qed.

(** Which exit an iteration takes once the merge has been called: the merge
    error alone decides, whatever the save does afterwards. *)
Lemma importFileView_merged (byHash : ByHash) (path : string) (w w1 w2 w3 : World)
    (doc : GhlighDoc Annot) (h : string) (am : gmap Z (list Annot))
    (imported : Z) (err : error) :
  Open path w = (Ok doc, w1) → HashDoc doc w1 = (h, w2) →
  byHash !! h = Some am → Import doc am w2 = ((imported, err), w3) →
  (value (importFileView byHash path w)).1
    = match err with Some _ => MergeFailed | None => Completed end
  ∧ File (value (importFileView byHash path w)).2 = path
  ∧ Imported (value (importFileView byHash path w)).2 = imported.
Proof.
  intros HO HH HE HI. unfold_run. rewrite HO. simpl. rewrite HH. simpl.
  rewrite HE. simpl. rewrite HI. destruct err; simpl; [easy|].
  answers; easy.
Qed.

Lemma importLoop_summary (byHash : ByHash) (paths : list string) (w : World) :
  elems (Files (value (forEach (importFile byHash) (mkSummary None 0) paths w)))
    = reported (value (importViews byHash paths w))
  ∧ TotalImported (value (forEach (importFile byHash) (mkSummary None 0) paths w))
    = wrap64 (sumImported (reportedWithoutMergeError
                             (value (importViews byHash paths w)))).
Proof.
  rewrite forEach_importFile_view.
  change (value (?a, ?b, ?c)) with a. split.
  - now rewrite foldl_record_files.
  - rewrite total_from_zero, sumCounted_reported; [reflexivity|].
    apply importViews_unmerged.
Qed.

(** The successful import request, down to its loop. *)
Lemma serveImportHandler_ok (r : Request) (w : World) (body : string)
    (importedDocs : slice (GhlighDoc Annot)) (pdfs : slice string) :
  Method r = "POST" → Body r = Ok body → Unmarshal body = Ok importedDocs →
  value (scanPDFs "." w) = Ok pdfs →
  serveImportHandler r w =
    (writeJSON 200
       (encSummary
          (value (forEach (importFile (aggregate (elems importedDocs)))
                          (mkSummary None 0) (elems pdfs) w))),
     world (forEach (importFile (aggregate (elems importedDocs)))
                    (mkSummary None 0) (elems pdfs) w),
     EvWalkDir "." ::
       trace (forEach (importFile (aggregate (elems importedDocs)))
                      (mkSummary None 0) (elems pdfs) w)).
Proof.
  intros HM HB HU HS. unfold serveImportHandler. rewrite HM, HB, HU. simpl.
  unfold_run.
  destruct (walk (walkFn (Abs w)) None (WalkDir "." w)) as [found [msg|]];
    simpl in *; [discriminate|].
  injection HS as ->.
  destruct (forEach _ _ _ w) as [[summary w'] t]. simpl.
  now rewrite app_nil_r.
Qed.

(** C2.  The total of an import is the sum of the imported counts of the
    reported files whose merge step returned no error; a file whose merge
    succeeded is among them whatever its save does.  ([TotalImported] is a Go
    [int]: the sum is assumed to fit.) *)
Theorem total_counts_merged_files (byHash : ByHash) (paths : list string)
    (w : World) :
  int_range (sumImported (reportedWithoutMergeError
                            (value (importViews byHash paths w)))) →
  elems (Files (value (forEach (importFile byHash) (mkSummary None 0) paths w)))
    = reported (value (importViews byHash paths w))
  ∧ TotalImported (value (forEach (importFile byHash) (mkSummary None 0) paths w))
    = sumImported (reportedWithoutMergeError
                     (value (importViews byHash paths w)))
  ∧ ∀ path w0 w1 w2 w3 doc h am imported,
      Open path w0 = (Ok doc, w1) → HashDoc doc w1 = (h, w2) →
      byHash !! h = Some am → Import doc am w2 = ((imported, None), w3) →
      isReported (value (importFileView byHash path w0))
        && negb (mergeFailed (value (importFileView byHash path w0))) = true
      ∧ Imported (value (importFileView byHash path w0)).2 = imported.
Proof.
  intros Hfit. destruct (importLoop_summary byHash paths w) as [Hfiles Htotal].
  split; [exact Hfiles|]. split.
  - rewrite Htotal. now apply wrap64_small.
  - intros path w0 w1 w2 w3 doc h am imported HO HH HE HI.
    destruct (importFileView_merged _ _ _ _ _ _ _ _ _ _ _ HO HH HE HI)
      as (Hexit & _ & Hcount).
    split; [|exact Hcount].
    unfold isReported, mergeFailed. now rewrite Hexit.
Qed.

(** C1 (amended).  The total of an import is the sum of the imported counts of
    all the outcomes in [files], those with an open or a save error included,
    less the counts of the outcomes whose merge step returned an error: such an
    outcome keeps its partial count in [files], and the total leaves it out.
    (The difference is assumed to fit a Go [int].) *)
Theorem total_omits_failed_merges (byHash : ByHash) (paths : list string)
    (w : World) :
  int_range (sumImported (reported (value (importViews byHash paths w)))
             - sumImported (failedMerges (value (importViews byHash paths w)))) →
  elems (Files (value (forEach (importFile byHash) (mkSummary None 0) paths w)))
    = reported (value (importViews byHash paths w))
  ∧ TotalImported (value (forEach (importFile byHash) (mkSummary None 0) paths w))
    = (sumImported
         (elems (Files (value (forEach (importFile byHash) (mkSummary None 0)
                                       paths w))))
       - sumImported (failedMerges (value (importViews byHash paths w))))%Z.
Proof.
  intros Hfit. destruct (importLoop_summary byHash paths w) as [Hfiles Htotal].
  split; [exact Hfiles|].
  rewrite Htotal, Hfiles.
  rewrite sumImported_reported_split in *.
  rewrite wrap64_small; [lia|].
  unfold int_range in *. lia.
Qed.

(** C4.  A document that opens and whose current content hash has no entry in
    the aggregated mapping is closed and left out of the summary altogether:
    the [files] array and the total are as before.  A document whose hash has
    an entry is reported, with its path, whatever the merge then applies. *)
Theorem unmatched_document_is_omitted (byHash : ByHash) (s : importSummary)
    (path : string) (w w1 w2 : World) (doc : GhlighDoc Annot) (h : string) :
  Open path w = (Ok doc, w1) → HashDoc doc w1 = (h, w2) →
  (byHash !! h = None →
   importFile byHash s path w
   = (s, Close doc w2, [EvOpen path (Ok doc); EvHashDoc doc; EvClose doc]))
  ∧ (is_Some (byHash !! h) →
     ∃ res, Files (value (importFile byHash s path w)) = append (Files s) res
            ∧ File res = path
            ∧ Imported res = (Import doc (default ∅ (byHash !! h)) w2).1.1).
Proof.
  intros HO HH. split.
  - intros HE. unfold_run. now rewrite HO, HH, HE.
  - intros [am HE]. unfold_run. rewrite HO. simpl. rewrite HH. simpl.
    rewrite HE. simpl. answers; eexists; (split; [reflexivity|easy]).
Qed.

(** *** Handles *)

Ltac close_iteration :=
  simpl;
  match goal with
  | |- iterationTrace _ [EvOpen _ (Err _)] => apply iteration_unopened
  | |- iterationTrace _ (EvOpen _ (Ok ?d) :: ?rest) =>
      apply (iteration_opened _ d (removelast rest)); repeat constructor
  end.

Lemma importFile_iteration (byHash : ByHash) (s : importSummary) (path : string)
    (w : World) :
  iterationTrace path (trace (importFile byHash s path w)).
Proof. unfold_run. answers; close_iteration. Qed.

Lemma importLoop_iterations (byHash : ByHash) (paths : list string)
    (s : importSummary) (w : World) :
  ∃ segs, trace (forEach (importFile byHash) s paths w) = concat segs
          ∧ Forall2 iterationTrace paths segs.
Proof.
  revert s w. induction paths as [|path paths IH]; intros s w.
  - exists []. split; [reflexivity|constructor].
  - cbn [forEach]. unfold bind.
    pose proof (importFile_iteration byHash s path w) as Hseg.
    unfold trace in *.
    destruct (importFile byHash s path w) as [[s1 w1] t1].
    destruct (IH s1 w1) as (segs & Hsegs & Hall).
    destruct (forEach (importFile byHash) s1 paths w1) as [[s2 w2] t2].
    simpl in *. subst t2.
    exists (t1 :: segs). split; [reflexivity|now constructor].
Qed.

(** C6.  The calls of an import request are the directory walk, if it comes
    to it, followed by one run of calls per scanned file; a run that opens a
    document ends with the close of that document, and no other open or close
    occurs within it.  So every opened document is closed once, before the
    next file is looked at, on each way through the loop body. *)
Theorem import_closes_every_document (r : Request) (w : World) :
  ∃ scan paths segs,
    trace (serveImportHandler r w) = scan ++ concat segs
    ∧ (scan = [] ∨ scan = [EvWalkDir "."])
    ∧ Forall2 iterationTrace paths segs.
Proof.
  unfold serveImportHandler.
  destruct (negb (String.eqb (Method r) "POST")).
  { exists [], [], []. repeat split; [now left|constructor]. }
  destruct (Body r) as [body|msg].
  2:{ exists [], [], []. repeat split; [now left|constructor]. }
  destruct (Unmarshal body) as [importedDocs|msg].
  2:{ exists [], [], []. repeat split; [now left|constructor]. }
  unfold bind at 1. unfold scanPDFs at 1.
  destruct (walk (walkFn (Abs w)) None (WalkDir "." w)) as [pdfs [msg|]].
  { exists [EvWalkDir "."], [], []. repeat split; [now right|constructor]. }
  unfold bind, ret.
  destruct (importLoop_iterations (aggregate (elems importedDocs)) (elems pdfs)
              (mkSummary None 0) w) as (segs & Hsegs & Hall).
  unfold trace in *.
  destruct (forEach _ _ _ w) as [[summary w'] t]. simpl in *. subst t.
  exists [EvWalkDir "."], (elems pdfs), segs.
  rewrite app_nil_r. repeat split; [now right|exact Hall].
Qed.

(** C7.  For a matched document the save is attempted exactly when the merge
    returned no error and a positive count.  The outcome keeps the merge's
    count; when the save is attempted its flag becomes [saved] and its error,
    if any, the outcome's error; otherwise [saved] stays false. *)
Theorem save_follows_successful_merge (byHash : ByHash) (s : importSummary)
    (path : string) (w w1 w2 w3 : World) (doc : GhlighDoc Annot) (h : string)
    (am : gmap Z (list Annot)) (imported : Z) (err : error) :
  Open path w = (Ok doc, w1) → HashDoc doc w1 = (h, w2) →
  byHash !! h = Some am → Import doc am w2 = ((imported, err), w3) →
  ∃ res,
    Files (value (importFile byHash s path w)) = append (Files s) res
    ∧ Imported res = imported
    ∧ (existsb isSave (trace (importFile byHash s path w)) = true
       ↔ (0 < imported)%Z ∧ err = None)
    ∧ ((0 < imported)%Z → err = None →
       Saved res = (Save doc w3).1.1
       ∧ Error res = default "" (Save doc w3).1.2)
    ∧ (¬ ((0 < imported)%Z ∧ err = None) →
       Saved res = false ∧ Error res = default "" err).
Proof.
  intros HO HH HE HI. unfold_run. rewrite HO. simpl. rewrite HH. simpl.
  rewrite HE. simpl. rewrite HI. simpl.
  destruct err as [msg|]; simpl.
  { eexists. split; [reflexivity|]. simpl.
    repeat split; try easy; intros [_ ?]; discriminate. }
  destruct (0 <? imported)%Z eqn:HPos; simpl.
  - apply Z.ltb_lt in HPos.
    destruct (Save doc w3) as [[saved [msg|]] w4]; simpl;
      (eexists; split; [reflexivity|]; simpl; repeat split; try easy).
    all: exfalso; match goal with Hno : ¬ _ |- _ => apply Hno; now split end.
  - apply Z.ltb_ge in HPos.
    eexists. split; [reflexivity|]. simpl.
    repeat split; try easy; try lia; intros [? _]; lia.
Qed.

(** C9.  An import request whose body does not decode is answered with status
    400 and a text that contains [invalid json]; no call has been made by
    then, and the world is as it was. *)
Theorem malformed_payload_aborts (r : Request) (w : World) (body msg : string) :
  Method r = "POST" → Body r = Ok body → Unmarshal body = Err msg →
  serveImportHandler r w = (httpError ("invalid json: " +:+ msg) 400, w, [])
  ∧ Status (value (serveImportHandler r w)) = 400%Z
  ∧ ∃ rest, Payload (value (serveImportHandler r w))
            = Plain ("invalid json" +:+ rest).
Proof.
  intros HM HB HU. unfold serveImportHandler. rewrite HM, HB, HU. simpl.
  repeat split. now exists (": " +:+ (msg +:+ newline)).
Qed.

(** C8 (amended).  An export request over a tree in which the walk meets no
    error and no file the scanner matches (an entry that is not a directory and
    has the extension [.pdf]) is answered with status 200 and the JSON value
    [null], the encoding of the nil slice. *)
Theorem export_of_no_documents_is_null (r : Request) (w : World) :
  Method r = "POST" → Forall passedOver (WalkDir "." w) →
  serveExportHandler r w = (writeJSON 200 JNull, w, [EvWalkDir "."]).
Proof.
  intros HM Hwalk. unfold serveExportHandler. rewrite HM. simpl.
  unfold_run. now rewrite walk_passedOver.
Qed.

(** The successful export request, down to its loop. *)
Lemma serveExportHandler_ok (r : Request) (w : World) (pdfs : slice string) :
  Method r = "POST" → value (scanPDFs "." w) = Ok pdfs →
  serveExportHandler r w =
    (writeJSON 200
       (encSlice encDoc (value (forEach exportFile None (elems pdfs) w))),
     world (forEach exportFile None (elems pdfs) w),
     EvWalkDir "." :: trace (forEach exportFile None (elems pdfs) w)).
Proof.
  intros HM HS. unfold serveExportHandler. rewrite HM. simpl.
  unfold_run.
  destruct (walk (walkFn (Abs w)) None (WalkDir "." w)) as [found [msg|]];
    simpl in *; [discriminate|].
  injection HS as ->.
  destruct (forEach _ _ _ w) as [[docs w'] t]. simpl.
  now rewrite app_nil_r.
Qed.

(** The export loop appends one summary per document it closes, and it closes
    what it opened. *)
Lemma exportLoop_summaries (paths : list string)
    (exportedDocs : slice (GhlighDoc Annot)) (w : World) :
  elems (value (forEach exportFile exportedDocs paths w))
    = elems exportedDocs ++ closedDocs (trace (forEach exportFile exportedDocs paths w))
  ∧ length (closedDocs (trace (forEach exportFile exportedDocs paths w)))
    = length (filter (λ ev, isOpened ev = true)
                     (trace (forEach exportFile exportedDocs paths w))).
Proof.
  revert exportedDocs w. induction paths as [|path paths IH]; intros docs w.
  - simpl. now rewrite app_nil_r.
  - cbn [forEach]. unfold bind at 1 2 3 4.
    assert (Hstep :
      elems (value (exportFile docs path w))
        = elems docs ++ closedDocs (trace (exportFile docs path w))
      ∧ length (closedDocs (trace (exportFile docs path w)))
        = length (filter (λ ev, isOpened ev = true)
                         (trace (exportFile docs path w)))).
    { unfold_run. answers; [split; reflexivity|].
      now rewrite app_nil_r. }
    unfold value, trace in *.
    destruct (exportFile docs path w) as [[docs1 w1] t1].
    specialize (IH docs1 w1).
    destruct (forEach exportFile docs1 paths w1) as [[docs2 w2] t2].
    simpl in *. destruct Hstep as [Hd Hn], IH as [IHd IHn].
    unfold closedDocs in *.
    rewrite omap_app, filter_app, !length_app, IHd, Hd, IHn, Hn.
    now rewrite app_assoc.
Qed.


End HandlerFacts.

(** ** The statements on the concrete world *)

Import Fixture.

Example Ext_examples :
  (Ext "a.pdf", Ext "a.PDF", Ext "dir.d/file", Ext "x.tar.pdf", Ext "pdf")
  = (".pdf", ".PDF", "", ".pdf", "").
Proof. reflexivity. Qed.

Example aggregate_two_copies :
  annotsAt (aggregate payload) "abc" 1 = Some ["h1"; "h2"].
Proof. reflexivity. Qed.

Example import_tree :
  value (forEach (importFile (aggregate payload)) (mkSummary None 0) treePaths tree)
  = mkSummary
      (Some [mkResult "/w/good.pdf" 2 true "";
             mkResult "/w/half.pdf" 2 false "merge failed";
             mkResult "/w/unsaved.pdf" 3 false "disk full";
             mkResult "/w/damaged.pdf" 0 false "damaged file"])
      5.
Proof. reflexivity. Qed.

Example import_tree_calls :
  closedDocs (trace (forEach (importFile (aggregate payload)) (mkSummary None 0)
                             treePaths tree))
  = [mkDoc "/w/good.pdf" None ""; mkDoc "/w/half.pdf" None "";
     mkDoc "/w/unsaved.pdf" None ""; mkDoc "/w/other.pdf" None ""].
Proof. reflexivity. Qed.

(** A summary with an empty mapping makes its hash a target of the import. *)
Example blank_summary_matches :
  Files (value (forEach (importFile (aggregate [blank])) (mkSummary None 0)
                        ["/w/good.pdf"] [good]))
  = Some [mkResult "/w/good.pdf" 2 true ""]
  ∧ Files (value (forEach (importFile (aggregate [absent])) (mkSummary None 0)
                          ["/w/good.pdf"] [good]))
    = None.
Proof. split; reflexivity. Qed.

Example export_tree :
  value (serveExportHandler (post "") [good; notes; damaged])
  = writeJSON 200 (JArr [JStr "/w/good.pdf"])
  ∧ value (serveExportHandler (post "") [notes]) = writeJSON 200 JNull.
Proof. split; reflexivity. Qed.

(** C1: a merge that fails after two records leaves them in [files] and out
    of the total. *)
Lemma total_of_all_outcomes_counterexample :
  ¬ (∀ (byHash : gmap string (gmap Z (list string))) (paths : list string)
       (w : list file),
       TotalImported
         (value (forEach (importFile byHash) (mkSummary None 0) paths w))
       = sumImported
           (elems (Files (value (forEach (importFile byHash) (mkSummary None 0)
                                         paths w))))).
Proof.
  intros H.
  specialize (H (aggregate [copyA]) ["/w/half.pdf"] [halfMerged]).
  vm_compute in H. discriminate.
Qed.

Lemma total_omits_failed_merges_witness :
  int_range (sumImported (reported (value (importViews (aggregate payload) treePaths tree)))
             - sumImported (failedMerges (value (importViews (aggregate payload) treePaths tree))))
  ∧ TotalImported
      (value (forEach (importFile (aggregate payload)) (mkSummary None 0) treePaths tree))
    = (sumImported
         (elems (Files (value (forEach (importFile (aggregate payload))
                                       (mkSummary None 0) treePaths tree))))
       - sumImported (failedMerges (value (importViews (aggregate payload) treePaths tree))))%Z.
Proof.
  assert (Hfit : int_range
            (sumImported (reported (value (importViews (aggregate payload) treePaths tree)))
             - sumImported (failedMerges (value (importViews (aggregate payload) treePaths tree))))).
  { vm_compute. split; [discriminate|reflexivity]. }
  split; [exact Hfit|].
  exact (proj2 (total_omits_failed_merges (aggregate payload) treePaths tree Hfit)).
Defined.

Lemma total_counts_merged_files_witness :
  int_range (sumImported (reportedWithoutMergeError
                            (value (importViews (aggregate payload) treePaths tree))))
  ∧ TotalImported
      (value (forEach (importFile (aggregate payload)) (mkSummary None 0) treePaths tree))
    = sumImported (reportedWithoutMergeError
                     (value (importViews (aggregate payload) treePaths tree))).
Proof.
  assert (Hfit : int_range
            (sumImported (reportedWithoutMergeError
                            (value (importViews (aggregate payload) treePaths tree))))).
  { vm_compute. split; [discriminate|reflexivity]. }
  split; [exact Hfit|].
  exact (proj1 (proj2 (total_counts_merged_files (aggregate payload) treePaths tree Hfit))).
Defined.

(** C3: a summary with a hash and an empty, but present, mapping registers
    its hash. *)
Lemma aggregate_of_empty_mappings_counterexample :
  ¬ (∀ docs : list (GhlighDoc string),
       Forall (λ d, HashBuffer d = "" ∨ AnnotsBuffer d = None
                    ∨ AnnotsBuffer d = Some ∅) docs →
       aggregate docs = ∅).
Proof.
  intros H.
  assert (E : aggregate [blank] = ∅).
  { apply H. constructor; [right; right; reflexivity|constructor]. }
  apply (f_equal (λ m, m !! "abc")) in E.
  vm_compute in E. discriminate.
Qed.

Lemma aggregate_skip_rule_witness :
  Forall (λ d : GhlighDoc string,
            HashBuffer d = "" ∨ AnnotsBuffer d = None ∨ AnnotsBuffer d = Some ∅)
         [absent; blank; unhashedA]
  ∧ annotsAt (aggregate ([copyA] ++ [absent; blank; unhashedA] ++ [copyB])) "abc" 1
    = annotsAt (aggregate ([copyA] ++ [copyB])) "abc" 1.
Proof.
  assert (H : Forall (λ d : GhlighDoc string,
                        HashBuffer d = "" ∨ AnnotsBuffer d = None
                        ∨ AnnotsBuffer d = Some ∅)
                     [absent; blank; unhashedA]).
  { constructor; [right; left; reflexivity|].
    constructor; [right; right; reflexivity|].
    constructor; [left; reflexivity|constructor]. }
  split; [exact H|].
  exact (proj1 (aggregate_skip_rule [copyA] [absent; blank; unhashedA] [copyB] H)
               "abc" 1%Z).
Defined.

(** C5: two summaries that share the empty hash are both skipped. *)
Lemma aggregate_concatenates_counterexample :
  ¬ (∀ (a b : GhlighDoc string) (h : string) (page : Z) (la lb : list string),
       HashBuffer a = h → HashBuffer b = h →
       AnnotsBuffer a ≫= (.!! page) = Some la →
       AnnotsBuffer b ≫= (.!! page) = Some lb →
       la ≠ [] → lb ≠ [] →
       annotsAt (aggregate [a; b]) h page = Some (la ++ lb)).
Proof.
  intros H.
  specialize (H unhashedA unhashedB "" 1%Z ["h1"] ["h2"]
                eq_refl eq_refl eq_refl eq_refl).
  assert (E : annotsAt (aggregate [unhashedA; unhashedB]) "" 1 = Some (["h1"] ++ ["h2"]))
    by (apply H; discriminate).
  vm_compute in E. discriminate.
Qed.

Lemma aggregate_concatenates_witness :
  "abc" ≠ ""
  ∧ annotsAt (aggregate [copyA; copyB]) "abc" 1 = Some (["h1"] ++ ["h2"])
  ∧ length (["h1"] ++ ["h2"]) = length ["h1"] + length ["h2"].
Proof.
  split; [discriminate|].
  apply (aggregate_concatenates copyA copyB "abc" 1%Z ["h1"] ["h2"]);
    [discriminate|reflexivity..].
Defined.

Lemma unmatched_document_is_omitted_witness :
  Open "/w/other.pdf" tree = (Ok (mkDoc "/w/other.pdf" None ""), tree)
  ∧ HashDoc (mkDoc (Annot:=string) "/w/other.pdf" None "") tree = ("xyz", tree)
  ∧ aggregate payload !! "xyz" = None
  ∧ importFile (aggregate payload) (mkSummary None 0) "/w/other.pdf" tree
    = (mkSummary None 0, tree,
       [EvOpen "/w/other.pdf" (Ok (mkDoc "/w/other.pdf" None ""));
        EvHashDoc (mkDoc "/w/other.pdf" None "");
        EvClose (mkDoc "/w/other.pdf" None "")]).
Proof.
  do 3 (split; [reflexivity|]).
  exact (proj1 (unmatched_document_is_omitted
                  (aggregate payload) (mkSummary None 0) "/w/other.pdf"
                  tree tree tree (mkDoc "/w/other.pdf" None "") "xyz"
                  eq_refl eq_refl) eq_refl).
Defined.

Lemma save_follows_successful_merge_witness :
  Open "/w/unsaved.pdf" tree = (Ok (mkDoc "/w/unsaved.pdf" None ""), tree)
  ∧ HashDoc (mkDoc (Annot:=string) "/w/unsaved.pdf" None "") tree = ("abc", tree)
  ∧ aggregate payload !! "abc" = Some {[1%Z := ["h1"; "h2"]]}
  ∧ Import (mkDoc "/w/unsaved.pdf" None "") {[1%Z := ["h1"; "h2"]]} tree
    = ((3%Z, None), tree)
  ∧ ∃ res,
      Files (value (importFile (aggregate payload) (mkSummary None 0)
                               "/w/unsaved.pdf" tree))
        = append None res
      ∧ Imported res = 3%Z
      ∧ existsb isSave (trace (importFile (aggregate payload) (mkSummary None 0)
                                          "/w/unsaved.pdf" tree)) = true
      ∧ Saved res = false
      ∧ Error res = "disk full".
Proof.
  assert (HO : Open "/w/unsaved.pdf" tree
               = (Ok (mkDoc "/w/unsaved.pdf" None ""), tree)) by reflexivity.
  assert (HH : HashDoc (mkDoc (Annot:=string) "/w/unsaved.pdf" None "") tree
               = ("abc", tree)) by reflexivity.
  assert (HE : aggregate payload !! "abc" = Some {[1%Z := ["h1"; "h2"]]})
    by reflexivity.
  assert (HI : Import (mkDoc "/w/unsaved.pdf" None "") {[1%Z := ["h1"; "h2"]]} tree
               = ((3%Z, None), tree)) by reflexivity.
  do 4 (split; [assumption|]).
  destruct (save_follows_successful_merge
              (aggregate payload) (mkSummary None 0) "/w/unsaved.pdf"
              tree tree tree tree (mkDoc "/w/unsaved.pdf" None "") "abc"
              {[1%Z := ["h1"; "h2"]]} 3%Z None HO HH HE HI)
    as (res & Hfiles & Hcount & Hsave & Hdone & _).
  exists res. split; [exact Hfiles|]. split; [exact Hcount|].
  split; [apply Hsave; split; [reflexivity|reflexivity]|].
  exact (Hdone eq_refl eq_refl).
Defined.

(** C8: the export of a tree without documents encodes a nil slice. *)
Lemma export_of_no_documents_counterexample :
  ¬ (∀ (r : Request) (w : list file),
       Method r = "POST" → Forall passedOver (WalkDir "." w) →
       Status (value (serveExportHandler r w)) = 200%Z
       ∧ Payload (value (serveExportHandler r w)) = Json (JArr [])).
Proof.
  intros H.
  destruct (H (post "") [] eq_refl) as [_ E]; [constructor|].
  vm_compute in E. discriminate.
Qed.

Lemma export_of_no_documents_is_null_witness :
  Method (post "") = "POST"
  ∧ Forall passedOver (WalkDir "." [notes])
  ∧ serveExportHandler (post "") [notes] = (writeJSON 200 JNull, [notes], [EvWalkDir "."]).
Proof.
  assert (Hwalk : Forall passedOver (WalkDir "." [notes])).
  { constructor; [|constructor]. split; [reflexivity|]. right. discriminate. }
  split; [reflexivity|]. split; [exact Hwalk|].
  exact (export_of_no_documents_is_null (post "") [notes] eq_refl Hwalk).
Defined.

Lemma malformed_payload_aborts_witness :
  Method (post "not json") = "POST"
  ∧ Body (post "not json") = Ok "not json"
  ∧ Unmarshal (Annot:=string) (World:=list file) "not json"
    = Err "invalid character 'o' in literal null (expecting 'u')"
  ∧ serveImportHandler (post "not json") tree
    = (httpError "invalid json: invalid character 'o' in literal null (expecting 'u')" 400,
       tree, []).
Proof.
  do 3 (split; [reflexivity|]).
  exact (proj1 (malformed_payload_aborts (post "not json") tree "not json"
                  "invalid character 'o' in literal null (expecting 'u')"
                  eq_refl eq_refl eq_refl)).
Defined.



(** * Further properties *)

(** ** The aggregator, for batches of any length *)

Section AggregatorBatches.
Context {Annot : Type}.

Local Abbreviation ByHash := (gmap string (gmap Z (list Annot))).

Lemma annotsAt_foldl_contributions (docs : list (GhlighDoc Annot)) (m : ByHash)
    (h : string) (page : Z) :
  annotsAt (foldl aggregateDoc m docs) h page =
    match omap (contribution h page) docs with
    | [] => annotsAt m h page
    | ls => Some (default [] (annotsAt m h page) ++ concat ls)
    end.
Proof.
  revert m. induction docs as [|d docs IH]; intros m; [reflexivity|].
  cbn [foldl]. rewrite IH, annotsAt_aggregateDoc.
  change (omap (contribution h page) (d :: docs))
    with (match contribution h page d with
          | Some l => l :: omap (contribution h page) docs
          | None => omap (contribution h page) docs
          end).
  set (c := contribution h page d).
  assert (Hc : c = if skipped d then None
                   else if decide (HashBuffer d = h)
                        then default ∅ (AnnotsBuffer d) !! page else None)
    by reflexivity.
  destruct (skipped d); [now rewrite Hc|].
  destruct (decide (HashBuffer d = h)); [|now rewrite Hc].
  destruct (default ∅ (AnnotsBuffer d) !! page) as [annots|]; rewrite Hc;
    [|reflexivity].
  destruct (omap (contribution h page) docs) as [|l ls]; simpl.
  - now rewrite app_nil_r.
  - now rewrite <- app_assoc.
Qed.

(** X1. The sequence aggregated for a hash and a page is the concatenation, in
    the order of the batch, of what the summaries of that hash list for the
    page: nothing is dropped, merged or reordered, whatever the size of the
    batch. *)
Theorem aggregate_concatenates_batch (docs : list (GhlighDoc Annot))
    (h : string) (page : Z) :
  annotsAt (aggregate docs) h page =
    match omap (contribution h page) docs with
    | [] => None
    | ls => Some (concat ls)
    end.
Proof.
  unfold aggregate. rewrite annotsAt_foldl_contributions.
  unfold annotsAt at 1 2. now rewrite lookup_empty.
Qed.

Lemma aggregateDoc_is_Some (m : ByHash) (d : GhlighDoc Annot) (h : string) :
  is_Some (aggregateDoc m d !! h)
  ↔ is_Some (m !! h) ∨ (skipped d = false ∧ HashBuffer d = h).
Proof.
  destruct (skipped d) eqn:Hs.
  - rewrite aggregateDoc_skipped by assumption. intuition discriminate.
  - rewrite aggregateDoc_insert by assumption.
    destruct (decide (HashBuffer d = h)) as [<-|Hne].
    + rewrite lookup_insert_eq. split; [now right|eauto].
    + rewrite lookup_insert_ne by assumption. intuition congruence.
Qed.

Lemma foldl_aggregateDoc_is_Some (docs : list (GhlighDoc Annot)) (m : ByHash)
    (h : string) :
  is_Some (foldl aggregateDoc m docs !! h)
  ↔ is_Some (m !! h) ∨ ∃ d, d ∈ docs ∧ skipped d = false ∧ HashBuffer d = h.
Proof.
  revert m. induction docs as [|d docs IH]; intros m.
  - simpl. split; [now left|]. intros [?|(d & Hd & _)]; [assumption|].
    now apply elem_of_nil in Hd.
  - cbn [foldl]. rewrite IH, aggregateDoc_is_Some. split.
    + intros [[?|[? ?]]|(d' & Hd' & ? & ?)].
      * now left.
      * right. exists d. split; [apply elem_of_cons; now left|easy].
      * right. exists d'. split; [apply elem_of_cons; now right|easy].
    + intros [?|(d' & Hd' & Hs & Hh)]; [now do 2 left|].
      apply elem_of_cons in Hd' as [->|Hd'].
      * left. now right.
      * right. now exists d'.
Qed.

Lemma aggregate_is_Some (docs : list (GhlighDoc Annot)) (h : string) :
  is_Some (aggregate docs !! h)
  ↔ ∃ d, d ∈ docs ∧ HashBuffer d = h ∧ h ≠ "" ∧ AnnotsBuffer d ≠ None.
Proof.
  assert (Hskip : ∀ d : GhlighDoc Annot,
            skipped d = false ↔ HashBuffer d ≠ "" ∧ AnnotsBuffer d ≠ None).
  { intros d. rewrite <- not_true_iff_false, skipped_true.
    destruct (AnnotsBuffer d); intuition congruence. }
  unfold aggregate. rewrite foldl_aggregateDoc_is_Some, lookup_empty. split.
  - intros [[? Hx]|(d & Hd & Hs & Hh)]; [discriminate|].
    apply Hskip in Hs as [Hne Hab]. exists d. subst h. easy.
  - intros (d & Hd & Hh & Hne & Hab). right. exists d. split; [assumption|].
    split; [|assumption]. apply Hskip. subst h. easy.
Qed.

(** X2. A hash has an entry in the aggregated mapping exactly when the batch
    holds a summary with that hash which is not skipped; the empty hash
    never has one. *)
Theorem aggregate_entries (docs : list (GhlighDoc Annot)) (h : string) :
  (is_Some (aggregate docs !! h)
   ↔ ∃ d, d ∈ docs ∧ HashBuffer d = h ∧ h ≠ "" ∧ AnnotsBuffer d ≠ None)
  ∧ aggregate docs !! "" = None.
Proof.
  split; [apply aggregate_is_Some|].
  apply eq_None_not_Some. rewrite aggregate_is_Some.
  intros (d & _ & _ & Hne & _). now apply Hne.
Qed.

(** X3. The aggregated mapping does not depend on the paths of the summaries:
    documents are told apart by their hash alone. *)
Theorem aggregate_ignores_paths (docs docs' : list (GhlighDoc Annot)) :
  Forall2 (λ d d', HashBuffer d = HashBuffer d'
                   ∧ AnnotsBuffer d = AnnotsBuffer d') docs docs' →
  aggregate docs = aggregate docs'.
Proof.
  intros Hall. unfold aggregate. generalize (∅ : ByHash).
  induction Hall as [|d d' docs docs' [Hh Hab] _ IH]; intros m; [reflexivity|].
  cbn [foldl].
  replace (aggregateDoc m d') with (aggregateDoc m d); [apply IH|].
  unfold aggregateDoc, skipped. now rewrite Hh, Hab.
Qed.

End AggregatorBatches.

(** ** The scanner *)

Lemma extFrom_found (revPath suffix : list ascii) (c : ascii) (rest : string) :
  extFrom revPath suffix = String c rest →
  ∃ tail front,
    revPath = tail ++ "."%char :: front
    ∧ String c rest = String.string_of_list_ascii ("."%char :: rev tail ++ suffix).
Proof.
  revert suffix. induction revPath as [|c0 revPath IH]; intros suffix H.
  - discriminate.
  - simpl in H.
    destruct (Ascii.eqb_spec c0 "/"); [discriminate|].
    destruct (Ascii.eqb_spec c0 ".") as [->|_].
    + exists [], revPath. split; [reflexivity|]. now rewrite <- H.
    + apply IH in H as (tail & front & -> & Hres).
      exists (c0 :: tail), front. split; [reflexivity|].
      rewrite Hres. simpl. now rewrite <- app_assoc.
Qed.

Lemma list_ascii_of_string_app (a b : string) :
  String.list_ascii_of_string (a +:+ b)
  = String.list_ascii_of_string a ++ String.list_ascii_of_string b.
Proof. induction a as [|c a IH]; [reflexivity|]. simpl. now rewrite IH. Qed.

Lemma string_of_list_ascii_app (a b : list ascii) :
  String.string_of_list_ascii (a ++ b)
  = String.string_of_list_ascii a +:+ String.string_of_list_ascii b.
Proof. induction a as [|c a IH]; [reflexivity|]. simpl. now rewrite IH. Qed.

Lemma Ext_pdf (name : string) :
  Ext name = ".pdf" ↔ ∃ stem, name = stem +:+ ".pdf".
Proof.
  unfold Ext. split.
  - intros H. apply extFrom_found in H as (tail & front & Hrev & Hres).
    apply (f_equal String.list_ascii_of_string) in Hres.
    rewrite String.list_ascii_of_string_of_list_ascii, app_nil_r in Hres.
    simpl in Hres. injection Hres as Htail.
    exists (String.string_of_list_ascii (rev front)).
    rewrite <- (String.string_of_list_ascii_of_string name).
    rewrite <- (rev_involutive (String.list_ascii_of_string name)), Hrev.
    rewrite rev_app_distr. simpl. rewrite <- Htail, <- app_assoc.
    now rewrite string_of_list_ascii_app.
  - intros [stem ->].
    now rewrite list_ascii_of_string_app, rev_app_distr.
Qed.

Lemma selected_iff_pdf_name (e : WalkEntry) :
  selected e = true ↔ IsDir e = false ∧ ∃ stem, Name e = stem +:+ ".pdf".
Proof.
  unfold selected. rewrite andb_true_iff, negb_true_iff, <- Ext_pdf.
  now rewrite String.eqb_eq.
Qed.

Lemma walkFn_selected (abs : string → result string) (pdfs : slice string)
    (e : WalkEntry) :
  walkErr e = None →
  walkFn abs pdfs e =
    if selected e then
      match abs (entryPath e) with
      | Err msg => (pdfs, Some msg)
      | Ok a => (append pdfs a, None)
      end
    else (pdfs, None).
Proof.
  intros Herr. unfold walkFn, selected. rewrite Herr.
  destruct (IsDir e); [reflexivity|].
  now destruct (String.eqb (Ext (Name e)) ".pdf").
Qed.

(** X4. At an entry without error whose path can be made absolute, the walk
    function appends that absolute path exactly when the entry is not a
    directory and its name ends in [.pdf], in lower case: the comparison of
    the extension is exact. Any other entry leaves the list as it is. *)
Theorem walkFn_keeps_pdf_names (abs : string → result string)
    (pdfs : slice string) (e : WalkEntry) (a : string) :
  walkErr e = None → abs (entryPath e) = Ok a →
  (IsDir e = false ∧ (∃ stem, Name e = stem +:+ ".pdf") →
   walkFn abs pdfs e = (append pdfs a, None))
  ∧ (¬ (IsDir e = false ∧ ∃ stem, Name e = stem +:+ ".pdf") →
     walkFn abs pdfs e = (pdfs, None)).
Proof.
  intros Herr Habs. rewrite walkFn_selected, Habs by assumption.
  rewrite <- selected_iff_pdf_name.
  destruct (selected e); split; intros H; try reflexivity.
  - now contradiction H.
  - discriminate.
Qed.

Lemma walk_app (fn : slice string → WalkEntry → slice string * error)
    (pdfs : slice string) (l1 l2 : list WalkEntry) :
  walk fn pdfs (l1 ++ l2) =
    match walk fn pdfs l1 with
    | (found, Some msg) => (found, Some msg)
    | (found, None) => walk fn found l2
    end.
Proof.
  revert pdfs. induction l1 as [|e l1 IH]; intros pdfs; [reflexivity|].
  simpl. destruct (fn pdfs e) as [found [msg|]]; [reflexivity|apply IH].
Qed.

Lemma walk_selects (abs : string → result string) (entries : list WalkEntry)
    (pdfs : slice string) :
  Forall (walkable abs) entries →
  ∃ found new,
    walk (walkFn abs) pdfs entries = (found, None)
    ∧ elems found = elems pdfs ++ new
    ∧ Forall2 (λ e a, abs (entryPath e) = Ok a)
              (filter (λ e, selected e = true) entries) new.
Proof.
  intros Hall. revert pdfs.
  induction Hall as [|e entries [Herr Habs] _ IH]; intros pdfs.
  - exists pdfs, []. simpl. rewrite app_nil_r. repeat split. constructor.
  - simpl. rewrite walkFn_selected, filter_cons by assumption.
    destruct (selected e) eqn:Hsel.
    + destruct (Habs eq_refl) as [a Ha]. rewrite Ha.
      destruct (IH (append pdfs a)) as (found & new & Hwalk & Helems & Hnew).
      exists found, (a :: new). split; [exact Hwalk|]. split.
      * rewrite Helems. simpl. now rewrite <- app_assoc.
      * rewrite decide_True by reflexivity. now constructor.
    + destruct (IH pdfs) as (found & new & Hwalk & Helems & Hnew).
      exists found, new. split; [exact Hwalk|]. split; [exact Helems|].
      now rewrite decide_False by discriminate.
Qed.

Section ScannerFacts.
Context {World Annot : Type}.
Context `{!DocumentLib World Annot} `{!Runtime World Annot}.

(** X5. When the walk meets no error, the scan returns the absolute paths of the
    entries it keeps, one for one and in walk order, and nothing else. *)
Theorem scanPDFs_selects (root : string) (w : World) :
  Forall (walkable (Abs w)) (WalkDir root w) →
  ∃ pdfs,
    scanPDFs (Annot:=Annot) root w = (Ok pdfs, w, [EvWalkDir root])
    ∧ Forall2 (λ e a, Abs w (entryPath e) = Ok a)
              (filter (λ e, selected e = true) (WalkDir root w)) (elems pdfs).
Proof.
  intros Hall. unfold scanPDFs.
  destruct (walk_selects (Abs w) (WalkDir root w) None Hall)
    as (found & new & -> & Helems & Hnew).
  exists found. split; [reflexivity|]. now rewrite Helems.
Qed.

(** X6. The scan fails with the first error of the walk, be it an error the walk
    reports at an entry or the failure to make a kept path absolute; what
    follows that entry plays no part, and no path is returned. *)
Theorem scanPDFs_first_error (root : string) (w : World)
    (before after : list WalkEntry) (e : WalkEntry) (msg : string) :
  WalkDir root w = before ++ e :: after →
  Forall (walkable (Abs w)) before →
  walkErr e = Some msg
  ∨ (walkErr e = None ∧ selected e = true ∧ Abs w (entryPath e) = Err msg) →
  scanPDFs (Annot:=Annot) root w = (Err msg, w, [EvWalkDir root]).
Proof.
  intros Hwalk Hbefore Hfail. unfold scanPDFs. rewrite Hwalk, walk_app.
  destruct (walk_selects (Abs w) before None Hbefore) as (found & new & -> & _).
  simpl.
  destruct Hfail as [Herr|(Herr & Hsel & Habs)].
  - unfold walkFn. now rewrite Herr.
  - now rewrite walkFn_selected, Hsel, Habs.
Qed.

End ScannerFacts.

(** ** The handlers, end to end *)

Section HandlerRuns.
Context {World Annot : Type}.
Context `{!DocumentLib World Annot} `{!Runtime World Annot}.

Local Abbreviation ByHash := (gmap string (gmap Z (list Annot))).

Ltac unfold_calls :=
  unfold importFile, exportFile, scanPDFs, bind, ret, doOpen,
    doGetAnnotsBuffer, doHashDoc, doImport, doSave, doClose,
    value, world, trace in *.

Ltac by_answers :=
  repeat (simpl;
    match goal with
    | |- context [Open ?p ?w] =>
        let E := fresh "HOpen" in destruct (Open p w) as [[?doc|?msg] ?w] eqn:E
    | |- context [HashDoc ?d ?w] =>
        let E := fresh "HHash" in destruct (HashDoc d w) as [?h ?w] eqn:E
    | |- context [GetAnnotsBuffer ?d ?w] =>
        let E := fresh "HAnn" in destruct (GetAnnotsBuffer d w) as [?ab ?w] eqn:E
    | |- context [@lookup string _ _ _ ?h ?m] =>
        let E := fresh "HEntry" in destruct (m !! h) as [?am|] eqn:E
    | |- context [Import ?d ?am ?w] =>
        let E := fresh "HImport" in
        destruct (Import d am w) as [[?imported [?msg|]] ?w] eqn:E
    | |- context [(0 <? ?n)%Z] =>
        let E := fresh "HPos" in destruct (0 <? n)%Z eqn:E
    | |- context [Save ?d ?w] =>
        let E := fresh "HSave" in
        destruct (Save d w) as [[?saved [?msg|]] ?w] eqn:E
    end); simpl.

(** *** Loops *)

Lemma forEach_trace_forallb {S X} (P : Event Annot → bool)
    (body : S → X → M World Annot S) :
  (∀ s x w, forallb P (trace (body s x w)) = true) →
  ∀ l s w, forallb P (trace (forEach body s l w)) = true.
Proof.
  intros Hbody l. induction l as [|x l IH]; intros s w; [reflexivity|].
  cbn [forEach]. unfold bind. specialize (Hbody s x w). unfold trace in *.
  destruct (body s x w) as [[s1 w1] t1]. specialize (IH s1 w1).
  destruct (forEach body s1 l w1) as [[s2 w2] t2]. simpl in *.
  rewrite forallb_app. now rewrite Hbody, IH.
Qed.

Lemma exportFile_iteration (exportedDocs : slice (GhlighDoc Annot))
    (path : string) (w : World) :
  exportIteration path (trace (exportFile exportedDocs path w)).
Proof. unfold_calls. by_answers; constructor. Qed.

Lemma exportLoop_iterations (paths : list string)
    (exportedDocs : slice (GhlighDoc Annot)) (w : World) :
  ∃ segs, trace (forEach exportFile exportedDocs paths w) = concat segs
          ∧ Forall2 exportIteration paths segs.
Proof.
  revert exportedDocs w. induction paths as [|path paths IH]; intros docs w.
  - exists []. split; [reflexivity|constructor].
  - cbn [forEach]. unfold bind.
    pose proof (exportFile_iteration docs path w) as Hseg.
    unfold trace in *.
    destruct (exportFile docs path w) as [[docs1 w1] t1].
    destruct (IH docs1 w1) as (segs & Hsegs & Hall).
    destruct (forEach exportFile docs1 paths w1) as [[docs2 w2] t2].
    simpl in *. subst t2.
    exists (t1 :: segs). split; [reflexivity|now constructor].
Qed.

Lemma attempted_app (t1 t2 : list (Event Annot)) :
  attempted (t1 ++ t2) = attempted t1 ++ attempted t2.
Proof. apply omap_app. Qed.

Lemma attempted_uses (doc : GhlighDoc Annot) (mid : list (Event Annot)) :
  Forall (usesDoc doc) mid → attempted mid = [].
Proof.
  induction 1 as [|ev mid Hev _ IH]; [reflexivity|].
  destruct ev; try contradiction; exact IH.
Qed.

Lemma attempted_importIterations (paths : list string)
    (segs : list (list (Event Annot))) :
  Forall2 iterationTrace paths segs → attempted (concat segs) = paths.
Proof.
  induction 1 as [|path seg paths segs Hseg _ IH]; [reflexivity|].
  cbn [concat]. rewrite attempted_app, IH.
  destruct Hseg as [msg|doc mid Hmid]; [reflexivity|].
  change (EvOpen path (Ok doc) :: mid ++ [EvClose doc])
    with ([EvOpen path (Ok doc)] ++ mid ++ [EvClose doc]).
  rewrite !attempted_app, (attempted_uses doc mid Hmid). reflexivity.
Qed.

Lemma attempted_exportIterations (paths : list string)
    (segs : list (list (Event Annot))) :
  Forall2 exportIteration paths segs → attempted (concat segs) = paths.
Proof.
  induction 1 as [|path seg paths segs Hseg _ IH]; [reflexivity|].
  cbn [concat]. rewrite attempted_app, IH.
  now destruct Hseg.
Qed.

Lemma exportLoop_slice (paths : list string)
    (exportedDocs : slice (GhlighDoc Annot)) (w : World) :
  value (forEach exportFile exportedDocs paths w) =
    match closedDocs (trace (forEach exportFile exportedDocs paths w)) with
    | [] => exportedDocs
    | ds => Some (elems exportedDocs ++ ds)
    end.
Proof.
  revert exportedDocs w. induction paths as [|path paths IH]; intros docs w.
  - reflexivity.
  - cbn [forEach]. unfold bind.
    assert (Hstep :
      value (exportFile docs path w) =
        match closedDocs (trace (exportFile docs path w)) with
        | [] => docs
        | ds => Some (elems docs ++ ds)
        end).
    { unfold_calls. by_answers; reflexivity. }
    unfold value, trace in *.
    destruct (exportFile docs path w) as [[docs1 w1] t1].
    specialize (IH docs1 w1).
    destruct (forEach exportFile docs1 paths w1) as [[docs2 w2] t2].
    simpl in *. subst docs1 docs2.
    unfold closedDocs in *. rewrite omap_app.
    destruct (omap _ t1) as [|d1 ds1]; simpl; [reflexivity|].
    destruct (omap _ t2) as [|d2 ds2]; simpl.
    + now rewrite app_nil_r.
    + now rewrite <- app_assoc.
Qed.

(** *** Requests that are turned down *)

(** X7. Both endpoints answer any method other than POST with status 405 and the
    text [method not allowed]; nothing is read, scanned or opened. *)
Theorem method_not_allowed (r : Request) (w : World) :
  Method r ≠ "POST" →
  serveExportHandler r w = (httpError "method not allowed" 405, w, [])
  ∧ serveImportHandler r w = (httpError "method not allowed" 405, w, []).
Proof.
  intros HM. unfold serveExportHandler, serveImportHandler.
  destruct (String.eqb_spec (Method r) "POST"); [contradiction|].
  now split.
Qed.

(** X8. An import request whose body cannot be read is answered with status 400
    and the reader's error; the payload is not decoded and nothing is
    scanned or opened. *)
Theorem unreadable_body_aborts (r : Request) (w : World) (msg : string) :
  Method r = "POST" → Body r = Err msg →
  serveImportHandler r w = (httpError msg 400, w, []).
Proof.
  intros HM HB. unfold serveImportHandler. now rewrite HM, HB.
Qed.

(** X9. When the scan fails both endpoints answer with status 500 and the
    scan's error: the export for any POST, whatever its body, the import for
    a POST whose body was read and decoded.  The walk is the only call made: no
    document is opened. *)
Theorem scan_failure_aborts (r : Request) (w : World) (msg : string) :
  Method r = "POST" → value (scanPDFs "." w) = Err msg →
  serveExportHandler r w = (httpError msg 500, w, [EvWalkDir "."])
  ∧ ∀ (body : string) (importedDocs : slice (GhlighDoc Annot)),
      Body r = Ok body → Unmarshal body = Ok importedDocs →
      serveImportHandler r w = (httpError msg 500, w, [EvWalkDir "."]).
Proof.
  intros HM HS. split.
  - unfold serveExportHandler. rewrite HM. simpl. unfold_calls.
    destruct (walk (walkFn (Abs w)) None (WalkDir "." w)) as [found [e|]];
      simpl in *; [|discriminate].
    now injection HS as ->.
  - intros body importedDocs HB HU.
    unfold serveImportHandler. rewrite HM, HB, HU. simpl. unfold_calls.
    destruct (walk (walkFn (Abs w)) None (WalkDir "." w)) as [found [e|]];
      simpl in *; [|discriminate].
    now injection HS as ->.
Qed.

(** *** Files that do not open *)

(** X10. A file that does not open is the end of its iteration and of nothing
    else: the import reports it with the error, no imported record and no
    save, and leaves the total as it is; the export passes over it without a
    trace in its payload. No further call is made for the file. *)
Theorem unopenable_file_is_isolated (byHash : ByHash) (s : importSummary)
    (exportedDocs : slice (GhlighDoc Annot)) (path msg : string) (w w1 : World) :
  Open path w = (Err msg, w1) →
  importFile byHash s path w
  = (mkSummary (append (Files s) (mkResult path 0 false msg)) (TotalImported s),
     w1, [EvOpen path (Err msg)])
  ∧ exportFile exportedDocs path w
    = (exportedDocs, w1, [EvOpen path (Err msg)]).
Proof. intros HO. unfold_calls. now rewrite HO. Qed.

(** *** The export *)

(** X11. The calls of an export request are the walk, if it comes to it,
    followed by one run per scanned file: a failed open on its own, or the
    open, the read of the annotations, the hash and the close. Every
    document the export opens is closed before the next file is looked at. *)
Theorem export_closes_every_document (r : Request) (w : World) :
  ∃ scan paths segs,
    trace (serveExportHandler r w) = scan ++ concat segs
    ∧ (scan = [] ∨ scan = [EvWalkDir "."])
    ∧ Forall2 exportIteration paths segs.
Proof.
  unfold serveExportHandler.
  destruct (negb (String.eqb (Method r) "POST")).
  { exists [], [], []. repeat split; [now left|constructor]. }
  unfold bind at 1. unfold scanPDFs at 1.
  destruct (walk (walkFn (Abs w)) None (WalkDir "." w)) as [pdfs [msg|]].
  { exists [EvWalkDir "."], [], []. repeat split; [now right|constructor]. }
  unfold bind, ret.
  destruct (exportLoop_iterations (elems pdfs) None w) as (segs & Hsegs & Hall).
  unfold trace in *.
  destruct (forEach _ _ _ w) as [[docs w'] t]. simpl in *. subst t.
  exists [EvWalkDir "."], (elems pdfs), segs.
  rewrite app_nil_r. repeat split; [now right|exact Hall].
Qed.

(** X12. A POST to the export endpoint whose scan succeeds is answered with
    status 200. Every scanned path is tried once, in scan order; the payload
    lists the documents that opened, in that order and as they were when
    closed, and is [null] when none did. *)
Theorem export_payload (r : Request) (w : World) (pdfs : slice string) :
  Method r = "POST" → value (scanPDFs "." w) = Ok pdfs →
  Status (value (serveExportHandler r w)) = 200%Z
  ∧ Payload (value (serveExportHandler r w))
    = Json (match closedDocs (trace (serveExportHandler r w)) with
            | [] => JNull
            | ds => JArr (encDoc <$> ds)
            end)
  ∧ attempted (trace (serveExportHandler r w)) = elems pdfs
  ∧ length (closedDocs (trace (serveExportHandler r w)))
    = length (filter (λ ev, isOpened ev = true) (trace (serveExportHandler r w))).
Proof.
  intros HM HS. rewrite (serveExportHandler_ok r w pdfs HM HS).
  change (value (?a, ?b, ?c)) with a. change (trace (?a, ?b, ?c)) with c.
  change (closedDocs (EvWalkDir "." :: ?t)) with (closedDocs t).
  change (attempted (EvWalkDir "." :: ?t)) with (attempted t).
  split; [reflexivity|]. split; [|split].
  - simpl. f_equal. rewrite exportLoop_slice.
    now destruct (closedDocs _).
  - destruct (exportLoop_iterations (elems pdfs) None w) as (segs & -> & Hall).
    now apply attempted_exportIterations.
  - rewrite filter_cons, decide_False by discriminate.
    apply exportLoop_summaries.
Qed.

(** X13. The export only reads: no export request ever calls the merge or the
    save of a document. The import, for its part, never reads the current
    annotations of a document. *)
Theorem export_only_reads (r : Request) (w : World) :
  forallb (λ ev, negb (isMutation ev)) (trace (serveExportHandler r w)) = true
  ∧ forallb (λ ev, negb (isGetAnnotsBuffer ev)) (trace (serveImportHandler r w)) = true.
Proof.
  split.
  - unfold serveExportHandler.
    destruct (negb (String.eqb (Method r) "POST")); [reflexivity|].
    unfold bind at 1. unfold scanPDFs at 1.
    destruct (walk (walkFn (Abs w)) None (WalkDir "." w)) as [pdfs [msg|]];
      [reflexivity|].
    unfold bind, ret.
    pose proof (forEach_trace_forallb (λ ev, negb (isMutation ev)) exportFile) as Hloop.
    specialize (Hloop (λ s x w0, ltac:(unfold_calls; by_answers; reflexivity))
                      (elems pdfs) None w).
    unfold trace in *.
    destruct (forEach _ _ _ w) as [[docs w'] t]. simpl in *.
    now rewrite app_nil_r.
  - unfold serveImportHandler.
    destruct (negb (String.eqb (Method r) "POST")); [reflexivity|].
    destruct (Body r) as [body|msg]; [|reflexivity].
    destruct (Unmarshal body) as [importedDocs|msg]; [|reflexivity].
    unfold bind at 1. unfold scanPDFs at 1.
    destruct (walk (walkFn (Abs w)) None (WalkDir "." w)) as [pdfs [msg|]];
      [reflexivity|].
    unfold bind, ret.
    pose proof (forEach_trace_forallb (λ ev, negb (isGetAnnotsBuffer ev))
                  (importFile (aggregate (elems importedDocs)))) as Hloop.
    specialize (Hloop (λ s x w0, ltac:(unfold_calls; by_answers; reflexivity))
                      (elems pdfs) (mkSummary None 0) w).
    unfold trace in *.
    destruct (forEach _ _ _ w) as [[summary w'] t]. simpl in *.
    now rewrite app_nil_r.
Qed.

(** *** The import *)

(** X14. An import whose payload decodes and whose scan succeeds tries every
    scanned path once, in scan order: no failure of a file ends the batch. *)
Theorem import_attempts_every_path (r : Request) (w : World) (body : string)
    (importedDocs : slice (GhlighDoc Annot)) (pdfs : slice string) :
  Method r = "POST" → Body r = Ok body → Unmarshal body = Ok importedDocs →
  value (scanPDFs "." w) = Ok pdfs →
  Status (value (serveImportHandler r w)) = 200%Z
  ∧ attempted (trace (serveImportHandler r w)) = elems pdfs.
Proof.
  intros HM HB HU HS.
  rewrite (serveImportHandler_ok r w body importedDocs pdfs HM HB HU HS).
  change (value (?a, ?b, ?c)) with a. change (trace (?a, ?b, ?c)) with c.
  change (attempted (EvWalkDir "." :: ?t)) with (attempted t).
  split; [reflexivity|].
  destruct (importLoop_iterations (aggregate (elems importedDocs)) (elems pdfs)
              (mkSummary None 0) w) as (segs & -> & Hall).
  now apply attempted_importIterations.
Qed.


(** X16. A document that opens is handed to the merge exactly when the payload
    holds a summary with the document's current hash, that hash being non-
    empty and the summary's mapping present. The merge then receives the
    aggregated mapping of that hash: for each page the concatenation, in
    payload order, of what the summaries of that hash list for it. *)
Theorem import_targets (importedDocs : list (GhlighDoc Annot))
    (s : importSummary) (path : string) (w w1 w2 : World)
    (doc : GhlighDoc Annot) (h : string) :
  Open path w = (Ok doc, w1) → HashDoc doc w1 = (h, w2) →
  (existsb isImport (trace (importFile (aggregate importedDocs) s path w)) = true
   ↔ ∃ d, d ∈ importedDocs ∧ HashBuffer d = h ∧ h ≠ ""
          ∧ AnnotsBuffer d ≠ None)
  ∧ ∀ am rest,
      trace (importFile (aggregate importedDocs) s path w)
      = [EvOpen path (Ok doc); EvHashDoc doc; EvImport doc am] ++ rest →
      ∀ page, am !! page =
                match omap (contribution h page) importedDocs with
                | [] => None
                | ls => Some (concat ls)
                end.
Proof.
  intros HO HH. rewrite <- aggregate_is_Some.
  assert (Hpage : ∀ am, aggregate importedDocs !! h = Some am →
            ∀ page, am !! page =
                      match omap (contribution h page) importedDocs with
                      | [] => None
                      | ls => Some (concat ls)
                      end).
  { intros am Ham page.
    pose proof (annotsAt_foldl_contributions importedDocs ∅ h page) as Hc.
    fold (aggregate importedDocs) in Hc. unfold annotsAt in Hc.
    rewrite Ham, lookup_empty in Hc. exact Hc. }
  unfold_calls. rewrite HO. simpl. rewrite HH. simpl.
  destruct (aggregate importedDocs !! h) as [am|] eqn:HE; simpl.
  - specialize (Hpage am eq_refl).
    by_answers; (split; [split; [eauto|reflexivity]|]);
      intros am' rest Ht; injection Ht as <- _; exact Hpage.
  - split; [split; [discriminate|intros [? ?]; discriminate]|].
    intros am' rest Ht. discriminate.
Qed.

(** X17. A payload in which every summary is skipped, the empty payload among
    them, changes no document: whatever the tree, the import calls neither
    the merge nor the save, and the total stays as it is. *)
Theorem skipped_payload_changes_nothing (importedDocs : list (GhlighDoc Annot))
    (paths : list string) (s : importSummary) (w : World) :
  Forall (λ d, HashBuffer d = "" ∨ AnnotsBuffer d = None) importedDocs →
  forallb (λ ev, negb (isMutation ev))
          (trace (forEach (importFile (aggregate importedDocs)) s paths w)) = true
  ∧ TotalImported (value (forEach (importFile (aggregate importedDocs)) s paths w))
    = TotalImported s.
Proof.
  intros Hskip. unfold aggregate. rewrite foldl_skipped by assumption.
  assert (Hstep : ∀ s0 path w0,
            forallb (λ ev, negb (isMutation ev))
                    (trace (importFile (Annot:=Annot) ∅ s0 path w0)) = true
            ∧ TotalImported (value (importFile (Annot:=Annot) ∅ s0 path w0))
              = TotalImported s0).
  { intros s0 path w0. unfold_calls.
    destruct (Open path w0) as [[doc|msg] w1]; simpl; [|now split].
    destruct (HashDoc doc w1) as [h w2]; simpl.
    rewrite lookup_empty. now split. }
  split.
  - apply forEach_trace_forallb. intros s0 path w0. apply Hstep.
  - revert s w. induction paths as [|path paths IH]; intros s w; [reflexivity|].
    cbn [forEach]. unfold bind.
    destruct (Hstep s path w) as [_ Htotal]. unfold value in *.
    destruct (importFile ∅ s path w) as [[s1 w1] t1].
    specialize (IH s1 w1).
    destruct (forEach (importFile ∅) s1 paths w1) as [[s2 w2] t2].
    simpl in *. congruence.
Qed.

Lemma importViews_files (byHash : ByHash) (paths : list string) (w : World) :
  (λ v, File v.2) <$> value (importViews byHash paths w) = paths.
Proof.
  revert w. induction paths as [|path paths IH]; intros w; [reflexivity|].
  cbn [importViews]. unfold bind, ret.
  assert (Hv : File (value (importFileView byHash path w)).2 = path).
  { unfold importFileView. unfold_calls. by_answers; reflexivity. }
  unfold value in *.
  destruct (importFileView byHash path w) as [[v w1] t1].
  specialize (IH w1).
  destruct (importViews byHash paths w1) as [[vs w2] t2].
  cbn [fst snd] in *. now rewrite fmap_cons, Hv, IH.
Qed.

(** X18. The [files] array follows the scan: the files of the outcomes are
    scanned paths, in scan order and each at most as often as it was
    scanned. *)
Theorem import_files_follow_scan (byHash : ByHash) (paths : list string)
    (w : World) :
  File <$> elems (Files (value (forEach (importFile byHash) (mkSummary None 0)
                                        paths w)))
  `sublist_of` paths.
Proof.
  destruct (importLoop_summary byHash paths w) as [-> _].
  rewrite <- (importViews_files byHash paths w) at 2.
  unfold reported. rewrite <- list_fmap_compose.
  apply fmap_sublist, sublist_filter.
Qed.

(** X19. In Go's [int] the total is the sum of the counts of the reported files
    whose merge returned no error, taken modulo 2^64 into the range of
    [int]: beyond that range the sum wraps around. *)
Theorem total_wraps_around (byHash : ByHash) (paths : list string) (w : World) :
  TotalImported (value (forEach (importFile byHash) (mkSummary None 0) paths w))
  = wrap64 (sumImported (reportedWithoutMergeError
                           (value (importViews byHash paths w))))
  ∧ int_range (TotalImported
                 (value (forEach (importFile byHash) (mkSummary None 0) paths w))).
Proof.
  destruct (importLoop_summary byHash paths w) as [_ Htotal].
  split; [exact Htotal|]. rewrite Htotal. apply wrap64_range.
Qed.

(** *** Status codes *)

(** X20. The import answers 200 exactly when the request is a POST whose body is
    read and decodes and the scan succeeds; what happens to the single files
    has no part in it. Otherwise the status is 400, 405 or 500 and the body
    is plain text. A 200 carries JSON. *)
Theorem import_status (r : Request) (w : World) :
  (Status (value (serveImportHandler r w)) = 200%Z
   ↔ Method r = "POST"
     ∧ ∃ body importedDocs pdfs,
         Body r = Ok body ∧ Unmarshal (World:=World) body = Ok importedDocs
         ∧ value (scanPDFs "." w) = Ok pdfs)
  ∧ (Status (value (serveImportHandler r w)) = 200%Z
     ∧ (∃ v, Payload (value (serveImportHandler r w)) = Json v)
     ∨ (Status (value (serveImportHandler r w)) = 400%Z
        ∨ Status (value (serveImportHandler r w)) = 405%Z
        ∨ Status (value (serveImportHandler r w)) = 500%Z)
       ∧ ∃ text, Payload (value (serveImportHandler r w)) = Plain text).
Proof.
  unfold serveImportHandler, scanPDFs, bind, ret, value.
  destruct (String.eqb_spec (Method r) "POST") as [HM|HM]; simpl.
  2:{ split; [split; [discriminate|tauto]|]. right. eauto. }
  destruct (Body r) as [body|msg]; simpl.
  2:{ split; [split; [discriminate|]|right; eauto].
      intros (_ & ? & ? & ? & ? & _). discriminate. }
  destruct (Unmarshal body) as [importedDocs|msg] eqn:HU; simpl.
  2:{ split; [split; [discriminate|]|right; eauto].
      intros (_ & ? & ? & ? & [= <-] & ? & _). congruence. }
  destruct (walk (walkFn (Abs w)) None (WalkDir "." w)) as [pdfs [msg|]]; simpl.
  { split; [split; [discriminate|]|right; eauto 6].
    intros (_ & ? & ? & ? & _ & _ & ?). discriminate. }
  destruct (forEach _ _ _ w) as [[summary w'] t]. simpl.
  split; [|left; eauto].
  split; [|reflexivity]. intros _. split; [assumption|]. eauto 6.
Qed.

(** X21. The export answers 200 exactly when the request is a POST and the scan
    succeeds, however many documents fail to open; otherwise the status is
    405 or 500 and the body is plain text. *)
Theorem export_status (r : Request) (w : World) :
  (Status (value (serveExportHandler r w)) = 200%Z
   ↔ Method r = "POST" ∧ ∃ pdfs, value (scanPDFs "." w) = Ok pdfs)
  ∧ (Status (value (serveExportHandler r w)) = 200%Z
     ∧ (∃ v, Payload (value (serveExportHandler r w)) = Json v)
     ∨ (Status (value (serveExportHandler r w)) = 405%Z
        ∨ Status (value (serveExportHandler r w)) = 500%Z)
       ∧ ∃ text, Payload (value (serveExportHandler r w)) = Plain text).
Proof.
  unfold serveExportHandler, scanPDFs, bind, ret, value.
  destruct (String.eqb_spec (Method r) "POST") as [HM|HM]; simpl.
  2:{ split; [split; [discriminate|tauto]|]. right. eauto. }
  destruct (walk (walkFn (Abs w)) None (WalkDir "." w)) as [pdfs [msg|]]; simpl.
  { split; [split; [discriminate|]|right; eauto].
    intros (_ & ? & ?). discriminate. }
  destruct (forEach _ _ _ w) as [[docs w'] t]. simpl.
  split; [|left; eauto].
  split; [|reflexivity]. intros _. split; [assumption|]. eauto.
Qed.

End HandlerRuns.

(** ** The further statements on the concrete worlds *)

Import Walks.

Example scan_library :
  value (scanPDFs (Annot:=string) "." library)
  = Ok (Some ["/cwd/a.pdf"; "/cwd/papers/c.pdf"]).
Proof. reflexivity. Qed.

Example scan_locked :
  scanPDFs (Annot:=string) "." locked
  = (Err "open private: permission denied", locked, [EvWalkDir "."]).
Proof. reflexivity. Qed.

Lemma aggregate_ignores_paths_witness :
  Forall2 (λ d d' : GhlighDoc string,
             HashBuffer d = HashBuffer d' ∧ AnnotsBuffer d = AnnotsBuffer d')
          [copyA; copyB]
          [mkDoc "/mnt/usb/paper.pdf" (Some {[1%Z := ["h1"]]}) "abc";
           mkDoc "" (Some {[1%Z := ["h2"]]}) "abc"]
  ∧ aggregate [copyA; copyB]
    = aggregate [mkDoc "/mnt/usb/paper.pdf" (Some {[1%Z := ["h1"]]}) "abc";
                 mkDoc "" (Some {[1%Z := ["h2"]]}) "abc"].
Proof.
  assert (H : Forall2 (λ d d' : GhlighDoc string,
                         HashBuffer d = HashBuffer d'
                         ∧ AnnotsBuffer d = AnnotsBuffer d')
                [copyA; copyB]
                [mkDoc "/mnt/usb/paper.pdf" (Some {[1%Z := ["h1"]]}) "abc";
                 mkDoc "" (Some {[1%Z := ["h2"]]}) "abc"]).
  { repeat (constructor; [split; reflexivity|]). constructor. }
  split; [exact H|]. exact (aggregate_ignores_paths _ _ H).
Defined.

Lemma walkFn_keeps_pdf_names_witness :
  walkErr (mkEntry "papers/c.pdf" "c.pdf" false None) = None
  ∧ Abs library "papers/c.pdf" = Ok "/cwd/papers/c.pdf"
  ∧ walkFn (Abs library) (Some ["/cwd/a.pdf"])
           (mkEntry "papers/c.pdf" "c.pdf" false None)
    = (Some ["/cwd/a.pdf"; "/cwd/papers/c.pdf"], None)
  ∧ walkFn (Abs library) (Some ["/cwd/a.pdf"]) (mkEntry "b.PDF" "b.PDF" false None)
    = (Some ["/cwd/a.pdf"], None).
Proof.
  assert (Hc : Abs library "papers/c.pdf" = Ok "/cwd/papers/c.pdf") by reflexivity.
  assert (Hb : Abs library "b.PDF" = Ok "/cwd/b.PDF") by reflexivity.
  split; [reflexivity|]. split; [exact Hc|]. split.
  - apply (proj1 (walkFn_keeps_pdf_names (Abs library) (Some ["/cwd/a.pdf"])
                    (mkEntry "papers/c.pdf" "c.pdf" false None)
                    "/cwd/papers/c.pdf" eq_refl Hc)).
    split; [reflexivity|]. now exists "c".
  - apply (proj2 (walkFn_keeps_pdf_names (Abs library) (Some ["/cwd/a.pdf"])
                    (mkEntry "b.PDF" "b.PDF" false None)
                    "/cwd/b.PDF" eq_refl Hb)).
    intros [_ Hname]. apply Ext_pdf in Hname. discriminate.
Defined.

Lemma scanPDFs_selects_witness :
  Forall (walkable (Abs library)) (WalkDir "." library)
  ∧ ∃ pdfs,
      scanPDFs (Annot:=string) "." library = (Ok pdfs, library, [EvWalkDir "."])
      ∧ Forall2 (λ e a, Abs library (entryPath e) = Ok a)
                (filter (λ e, selected e = true) (WalkDir "." library))
                (elems pdfs).
Proof.
  assert (H : Forall (walkable (Abs library)) (WalkDir "." library)).
  { repeat (constructor; [split; [reflexivity|intros _; eexists; reflexivity]|]).
    constructor. }
  split; [exact H|]. exact (scanPDFs_selects "." library H).
Defined.

Lemma scanPDFs_first_error_witness :
  WalkDir "." locked
  = [mkEntry "." "." true None; mkEntry "a.pdf" "a.pdf" false None]
    ++ mkEntry "private" "private" true (Some "open private: permission denied")
    :: [mkEntry "z.pdf" "z.pdf" false None]
  ∧ scanPDFs (Annot:=string) "." locked
    = (Err "open private: permission denied", locked, [EvWalkDir "."]).
Proof.
  split; [reflexivity|].
  apply (scanPDFs_first_error "." locked
           [mkEntry "." "." true None; mkEntry "a.pdf" "a.pdf" false None]
           [mkEntry "z.pdf" "z.pdf" false None]
           (mkEntry "private" "private" true (Some "open private: permission denied"))
           "open private: permission denied").
  - reflexivity.
  - repeat (constructor; [split; [reflexivity|intros _; eexists; reflexivity]|]).
    constructor.
  - now left.
Defined.

Lemma method_not_allowed_witness :
  Method (mkRequest "GET" (Ok "[]")) ≠ "POST"
  ∧ serveExportHandler (mkRequest "GET" (Ok "[]")) tree
    = (httpError "method not allowed" 405, tree, [])
  ∧ serveImportHandler (mkRequest "GET" (Ok "[]")) tree
    = (httpError "method not allowed" 405, tree, []).
Proof.
  assert (H : Method (mkRequest "GET" (Ok "[]")) ≠ "POST") by discriminate.
  split; [exact H|]. exact (method_not_allowed (mkRequest "GET" (Ok "[]")) tree H).
Defined.

Lemma unreadable_body_aborts_witness :
  Method (mkRequest "POST" (Err "unexpected EOF")) = "POST"
  ∧ Body (mkRequest "POST" (Err "unexpected EOF")) = Err "unexpected EOF"
  ∧ serveImportHandler (mkRequest "POST" (Err "unexpected EOF")) tree
    = (httpError "unexpected EOF" 400, tree, []).
Proof.
  do 2 (split; [reflexivity|]).
  exact (unreadable_body_aborts (mkRequest "POST" (Err "unexpected EOF")) tree
           "unexpected EOF" eq_refl eq_refl).
Defined.

Lemma scan_failure_aborts_witness :
  Method (post "") = "POST"
  ∧ value (scanPDFs (Annot:=string) "." locked)
    = Err "open private: permission denied"
  ∧ serveExportHandler (post "") locked
    = (httpError "open private: permission denied" 500, locked, [EvWalkDir "."])
  ∧ serveImportHandler (post "[]") locked
    = (httpError "open private: permission denied" 500, locked, [EvWalkDir "."]).
Proof.
  assert (HU : Unmarshal (World:=list WalkEntry) (Annot:=string) "[]" = Ok (Some []))
    by reflexivity.
  assert (HS : value (scanPDFs (Annot:=string) "." locked)
               = Err "open private: permission denied") by reflexivity.
  split; [reflexivity|]. split; [exact HS|]. split.
  - exact (proj1 (scan_failure_aborts (post "") locked
                    "open private: permission denied" eq_refl HS)).
  - exact (proj2 (scan_failure_aborts (post "[]") locked
                    "open private: permission denied" eq_refl HS)
                 "[]" (Some []) eq_refl HU).
Defined.

Lemma unopenable_file_is_isolated_witness :
  Open "/w/damaged.pdf" tree = (Err "damaged file", tree)
  ∧ importFile (aggregate payload) (mkSummary None 7) "/w/damaged.pdf" tree
    = (mkSummary (Some [mkResult "/w/damaged.pdf" 0 false "damaged file"]) 7,
       tree, [EvOpen "/w/damaged.pdf" (Err "damaged file")])
  ∧ exportFile None "/w/damaged.pdf" tree
    = (None, tree, [EvOpen "/w/damaged.pdf" (Err "damaged file")]).
Proof.
  assert (HO : Open "/w/damaged.pdf" tree = (Err "damaged file", tree))
    by reflexivity.
  split; [exact HO|].
  exact (unopenable_file_is_isolated (aggregate payload) (mkSummary None 7) None
           "/w/damaged.pdf" "damaged file" tree tree HO).
Defined.

Lemma export_payload_witness :
  Method (post "") = "POST"
  ∧ value (scanPDFs "." [good; notes; damaged; other])
    = Ok (Some ["/w/good.pdf"; "/w/damaged.pdf"; "/w/other.pdf"])
  ∧ Payload (value (serveExportHandler (post "") [good; notes; damaged; other]))
    = Json (match closedDocs (trace (serveExportHandler (post "")
                                       [good; notes; damaged; other])) with
            | [] => JNull
            | ds => JArr (encDoc <$> ds)
            end)
  ∧ attempted (trace (serveExportHandler (post "") [good; notes; damaged; other]))
    = ["/w/good.pdf"; "/w/damaged.pdf"; "/w/other.pdf"].
Proof.
  assert (HS : value (scanPDFs "." [good; notes; damaged; other])
               = Ok (Some ["/w/good.pdf"; "/w/damaged.pdf"; "/w/other.pdf"]))
    by reflexivity.
  split; [reflexivity|]. split; [exact HS|].
  destruct (export_payload (post "") [good; notes; damaged; other]
              (Some ["/w/good.pdf"; "/w/damaged.pdf"; "/w/other.pdf"])
              eq_refl HS) as (_ & Hpayload & Hpaths & _).
  split; [exact Hpayload|exact Hpaths].
Defined.

Lemma import_attempts_every_path_witness :
  Method (post "[]") = "POST" ∧ Body (post "[]") = Ok "[]"
  ∧ Unmarshal (World:=list file) (Annot:=string) "[]" = Ok (Some [])
  ∧ value (scanPDFs "." tree) = Ok (Some treePaths)
  ∧ Status (value (serveImportHandler (post "[]") tree)) = 200%Z
  ∧ attempted (trace (serveImportHandler (post "[]") tree)) = treePaths.
Proof.
  assert (HU : Unmarshal (World:=list file) (Annot:=string) "[]" = Ok (Some []))
    by reflexivity.
  assert (HS : value (scanPDFs "." tree) = Ok (Some treePaths)) by reflexivity.
  do 2 (split; [reflexivity|]). split; [exact HU|]. split; [exact HS|].
  exact (import_attempts_every_path (post "[]") tree "[]" (Some [])
           (Some treePaths) eq_refl eq_refl HU HS).
Defined.


Lemma import_targets_witness :
  Open "/w/good.pdf" tree = (Ok (mkDoc "/w/good.pdf" None ""), tree)
  ∧ HashDoc (mkDoc (Annot:=string) "/w/good.pdf" None "") tree = ("abc", tree)
  ∧ (existsb isImport
       (trace (importFile (aggregate payload) (mkSummary None 0) "/w/good.pdf" tree))
     = true
     ↔ ∃ d, d ∈ payload ∧ HashBuffer d = "abc" ∧ "abc" ≠ ""
            ∧ AnnotsBuffer d ≠ None).
Proof.
  assert (HO : Open "/w/good.pdf" tree = (Ok (mkDoc "/w/good.pdf" None ""), tree))
    by reflexivity.
  assert (HH : HashDoc (mkDoc (Annot:=string) "/w/good.pdf" None "") tree
               = ("abc", tree)) by reflexivity.
  split; [exact HO|]. split; [exact HH|].
  exact (proj1 (import_targets payload (mkSummary None 0) "/w/good.pdf"
                  tree tree tree (mkDoc "/w/good.pdf" None "") "abc" HO HH)).
Defined.

Lemma skipped_payload_changes_nothing_witness :
  Forall (λ d : GhlighDoc string, HashBuffer d = "" ∨ AnnotsBuffer d = None)
         [absent; unhashedA]
  ∧ forallb (λ ev, negb (isMutation ev))
            (trace (forEach (importFile (aggregate [absent; unhashedA]))
                            (mkSummary None 0) treePaths tree)) = true
  ∧ TotalImported
      (value (forEach (importFile (aggregate [absent; unhashedA]))
                      (mkSummary None 0) treePaths tree))
    = TotalImported (mkSummary None 0).
Proof.
  assert (H : Forall (λ d : GhlighDoc string,
                        HashBuffer d = "" ∨ AnnotsBuffer d = None)
                     [absent; unhashedA]).
  { constructor; [right; reflexivity|].
    constructor; [left; reflexivity|constructor]. }
  split; [exact H|].
  exact (skipped_payload_changes_nothing [absent; unhashedA] treePaths
           (mkSummary None 0) tree H).
Defined.
